(** * HTNE: the recurrent text classifier of [backend/models/lstm.py]

    A shallow embedding of the training core of [lstm.py]: batch-index
    generation, the epoch loop, the device-transfer decorator, the
    checkpoint operations, the embedding-weight construction and the
    forward pass of the [LSTM] class, followed by the properties the
    specification states about them.

    Conventions.
    - Python exceptions are values of [Py.exn]; a call that may raise
      returns [Py.result].
    - 64-bit floating point numbers are idealised as real numbers [R].
    - The numeric kernels of PyTorch (the GRU cell, cross entropy,
      automatic differentiation, the Adam update rule, the random
      initialisers) are parameters of the model; only the way [lstm.py]
      composes them is fixed here.
    - Global state the source reaches through libraries (the NumPy random
      generator, the file system) is passed explicitly. *)

From Stdlib Require Import ZArith List Lia Permutation Reals Lra Ascii.
From stdpp Require Import gmap strings list.

(* ===================================================================== *)
(** * Definitions *)
(* ===================================================================== *)

(** ** Python results and exceptions *)

Module Py.

Inductive exn : Type :=
  | ZeroDivisionError
  | ValueError
  | IndexError
  | KeyError
  | TypeError
  | AttributeError
  | FileNotFoundError
  | FileExistsError
  | IsADirectoryError
  | UnpicklingError
  | RuntimeError
  | AssertionError
  | NameError.

Inductive result (A : Type) : Type :=
  | Ok (a : A)
  | Raise (e : exn).
Arguments Ok {A} a.
Arguments Raise {A} e.

#[export] Instance result_ret : MRet result := fun _ a => Ok a.
#[export] Instance result_bind : MBind result := fun _ _ f r =>
  match r with
  | Ok a => f a
  | Raise e => Raise e
  end.

(** A list comprehension, or a [for] loop that builds a list, whose body
    may raise: elements are evaluated left to right and the first
    exception wins. *)
Fixpoint traverse {A B : Type} (f : A -> result B) (l : list A)
  : result (list B) :=
  match l with
  | [] => Ok []
  | x :: l' => y ← f x; ys ← traverse f l'; Ok (y :: ys)
  end.

(** [a % b] on non-negative integers. *)
Definition mod_ (a b : nat) : result nat :=
  if (b =? 0)%nat then Raise ZeroDivisionError else Ok (a mod b)%nat.

(** [range(start, stop)]. *)
Definition range (start stop : nat) : list nat := seq start (stop - start).

(** [range(start, stop, step)] for a non-negative step; Python defines
    its length as the ceiling of [(stop - start) / step]. *)
Definition range3 (start stop step : nat) : result (list nat) :=
  if (step =? 0)%nat then Raise ValueError
  else Ok (map (fun k => start + k * step)%nat
               (seq 0 ((stop - start + (step - 1)) / step)%nat)).

(** [a[i]] on a list or along the first axis of an array, for a
    non-negative [i]. *)
Definition getitem {A : Type} (a : list A) (i : nat) : result A :=
  match a !! i with
  | Some x => Ok x
  | None => Raise IndexError
  end.

(** [a[idx]] where [idx] is a sequence of positions (NumPy and PyTorch
    integer-array indexing along the first axis). *)
Definition take_indices {A : Type} (a : list A) (idx : list nat)
  : result (list A) :=
  traverse (getitem a) idx.

End Py.
Import Py.

(** ** Batch-index generation: [ModelBaseClass.get_indices],
       [get_batches], [create_batches] *)

Module Batching.

(** The NumPy global random generator.  [np.random.permutation(n)]
    advances the generator; [draws] counts the arrays drawn so far, and
    the oracle [permutation_of] gives the array returned by the [k]-th
    draw. *)
Record rng : Type := { draws : nat }.

Section WithOracle.
Variable permutation_of : nat -> nat -> list nat.

Definition np_random_permutation (g : rng) (n : nat) : list nat * rng :=
  (permutation_of (draws g) n, {| draws := S (draws g) |}).

(** The body of [get_indices] once [shuffled_indices] is known. *)
Definition chunk_indices (shuffled_indices : list nat)
  (dataset_size batch_size : nat) : result (list (list nat)) :=
  r ← mod_ dataset_size batch_size;
  let ending_index := (dataset_size - r)%nat in
  starts ← range3 0 ending_index batch_size;
  batch_indices ←
    traverse (fun i => take_indices shuffled_indices
                         (range i (i + batch_size))) starts;
  if negb (ending_index =? dataset_size)%nat then
    rest ← take_indices shuffled_indices (range ending_index dataset_size);
    Ok (batch_indices ++ [rest])
  else Ok batch_indices.

Definition get_indices (g : rng) (dataset_size batch_size : nat)
  : result (list (list nat) * rng) :=
  let '(shuffled_indices, g') := np_random_permutation g dataset_size in
  batch_indices ← chunk_indices shuffled_indices dataset_size batch_size;
  Ok (batch_indices, g').

(** [get_batches]: [data[indices]] for each [indices] of
    [batch_indices]. *)
Definition get_batches {A : Type} (data : list A)
  (batch_indices : list (list nat)) : result (list (list A)) :=
  traverse (take_indices data) batch_indices.

(** [create_batches]; [input_data.shape[0]] is the number of rows. *)
Definition create_batches {A B : Type} (g : rng)
  (input_data : list A) (expected_output : list B) (batch_size : nat)
  : result (list (list A) * list (list B) * rng) :=
  let dataset_size := length input_data in
  '(batch_indices, g') ← get_indices g dataset_size batch_size;
  batched_inputs ← get_batches input_data batch_indices;
  batched_outputs ← get_batches expected_output batch_indices;
  Ok (batched_inputs, batched_outputs, g').

End WithOracle.

(** What the specification describes: the full chunks of [B] consecutive
    entries of the permutation, then the remainder if there is one. *)
Definition full_chunks (shuffled : list nat) (N B : nat) : list (list nat) :=
  map (fun j => take B (drop (j * B) shuffled)) (seq 0 (N / B)).

Definition rest_chunk (shuffled : list nat) (N B : nat) : list (list nat) :=
  if (N mod B =? 0)%nat then [] else [drop (N - N mod B) shuffled].

End Batching.

(** ** The device-transfer decorator: [move_device], [move_back],
       [use_gpu] *)

Module Device.

Inductive device : Type :=
  | Cpu
  | Cuda (index : nat).

#[export] Instance device_eq_dec : EqDecision device.
Proof. solve_decision. Defined.

(** The arguments a decorated function can receive.  A [Tensor] is a
    [torch.Tensor] with its placement; a [Model] is an [nn.Module] of this
    file, which carries the attribute [device] given to its constructor
    next to the placement of its parameters.  Both expose [cuda]; an
    [Int] and a [Dict] do not. *)
#[warnings="-register-all"]
Inductive value : Type :=
  | Int (z : Z)
  | Tensor (placement : device) (data : list Z)
  | Model (device_attr : device) (placement : device)
  | Dict (items : list (string * value)).

(** [hasattr(arg, 'cuda')]. *)
Definition has_cuda (v : value) : bool :=
  match v with
  | Tensor _ _ | Model _ _ => true
  | Int _ | Dict _ => false
  end.

(** [arg.cuda()]: placement on the current accelerator, unless the object
    is on an accelerator already. *)
Definition to_cuda (d : device) : device :=
  match d with
  | Cpu => Cuda 0
  | Cuda i => Cuda i
  end.

Definition cuda (v : value) : value :=
  match v with
  | Tensor d x => Tensor (to_cuda d) x
  | Model a d => Model a (to_cuda d)
  | v => v
  end.

(** [arg.device]. *)
Definition device_of (v : value) : result device :=
  match v with
  | Tensor d _ => Ok d
  | Model a _ => Ok a
  | Int _ | Dict _ => Raise AttributeError
  end.

(** [arg.to(d)]; [to(None)] leaves the object where it is. *)
Definition to (v : value) (d : option device) : value :=
  match d, v with
  | Some d, Tensor _ x => Tensor d x
  | Some d, Model a _ => Model a d
  | _, v => v
  end.


(** A [dict] with string keys in insertion order, as [**kwargs] is. *)
Abbreviation kwargs_t := (list (string * value)).

(** [d[key] = v]. *)
Fixpoint dict_set (d : kwargs_t) (key : string) (v : value) : kwargs_t :=
  match d with
  | [] => [(key, v)]
  | (k, w) :: d' =>
      if String.eqb k key then (k, v) :: d' else (k, w) :: dict_set d' key v
  end.

Definition move_device (args : list value) (available : bool)
  (kwargs : kwargs_t) : list value * kwargs_t :=
  let new_args :=
    fold_left (fun new_args arg =>
                 let arg := if has_cuda arg
                            then (if available then cuda arg else arg)
                            else arg in
                 new_args ++ [arg]) args [] in
  let new_kwargs :=
    fold_left (fun new_kwargs '(key, value) =>
                 let value := if has_cuda value
                              then (if available then cuda value else value)
                              else value in
                 dict_set new_kwargs key value) kwargs [] in
  (new_args, new_kwargs).

(** The positional loop of [move_back]. *)
Definition move_back_args (arg_devices : list (option device))
  (args : list value) : result (list value) :=
  traverse (fun '(i, arg) =>
              if has_cuda arg
              then d ← getitem arg_devices i; Ok (to arg d)
              else Ok arg) (imap (fun i arg => (i, arg)) args).

(** The keyword loop of [move_back].  The source writes
    [value.to[kwarg_devices[key]]]: the dictionary is read first, then the
    bound method [value.to] is subscripted, which raises [TypeError]. *)
Definition move_back_kwargs (kwarg_devices : gmap string device)
  (kwargs : kwargs_t) : result kwargs_t :=
  foldl (fun acc '(key, value) =>
           new_kwargs ← acc;
           value ← (if has_cuda value
                    then match kwarg_devices !! key with
                         | Some _ => Raise TypeError
                         | None => Raise KeyError
                         end
                    else Ok value);
           Ok (dict_set new_kwargs key value)) (Ok []) kwargs.

(** [move_back], called with the two device records, then the positional
    and the keyword arguments. *)
Definition move_back (arg_devices : list (option device))
  (kwarg_devices : gmap string device) (args : list value)
  (kwargs : kwargs_t) : result (list value * kwargs_t) :=
  new_args ← move_back_args arg_devices args;
  new_kwargs ← move_back_kwargs kwarg_devices kwargs;
  Ok (new_args, new_kwargs).

(** What [new_fun] returns, together with the final bindings of its local
    names [args] and [kwargs]. *)
Record outcome (A : Type) : Type :=
  { rv : A; args_after : list value; kwargs_after : kwargs_t }.
Arguments rv {A} o.
Arguments args_after {A} o.
Arguments kwargs_after {A} o.

(** The first loop of [new_fun]: the device of every positional argument
    that has [cuda], at its position. *)
Definition record_arg_devices (args : list value)
  : result (list (option device)) :=
  foldl (fun acc '(i, arg) =>
           arg_devices ← acc;
           if has_cuda arg
           then d ← device_of arg; Ok (<[i := Some d]> arg_devices)
           else Ok arg_devices)
        (Ok (map (fun _ => None) args)) (imap (fun i arg => (i, arg)) args).

(** The second loop of [new_fun]: the same by keyword. *)
Definition record_kwarg_devices (kwargs : kwargs_t)
  : result (gmap string device) :=
  foldl (fun acc '(key, value) =>
           kwarg_devices ← acc;
           if has_cuda value
           then d ← device_of value; Ok (<[key := d]> kwarg_devices)
           else Ok kwarg_devices)
        (Ok ∅) kwargs.

(** [new_fun], the function [use_gpu(available)] puts in place of [f].
    Its call to [move_back] passes [kwargs] unstarred, as one more
    positional argument after the unpacked [args], so [move_back] sees no
    keyword argument. *)
Definition use_gpu {A : Type} (available : bool)
  (f : list value -> kwargs_t -> result A)
  (args : list value) (kwargs : kwargs_t) : result (outcome A) :=
  arg_devices ← record_arg_devices args;
  kwarg_devices ← record_kwarg_devices kwargs;
  let '(args, kwargs) := move_device args available kwargs in
  rv ← f args kwargs;
  '(args, kwargs) ← move_back arg_devices kwarg_devices
                      (args ++ [Dict kwargs]) [];
  Ok {| rv := rv; args_after := args; kwargs_after := kwargs |}.



End Device.

(** ** Tensors, parameters and the file system *)

Module Torch.

(** A two-dimensional tensor as its list of rows; a one-dimensional tensor
    is stored as a single row. *)
Abbreviation matrix := (list (list R)).

(** [t.shape[0]] and [t.shape[1]]. *)
Definition shape (t : matrix) : nat * nat := (length t, length (hd [] t)).

Record parameter : Type :=
  { data : matrix; requires_grad : bool; grad : option matrix }.

Definition Rsum (l : list R) : R := fold_right Rplus 0%R l.

Definition dot (x y : list R) : R := Rsum (zip_with Rmult x y).

(** [F.softmax] along the last axis, on one row. *)
Definition softmax_row (row : list R) : list R :=
  map (fun x => (exp x / Rsum (map exp row))%R) row.

(** [nn.Linear]: [y = x W^T + b]. *)
Definition linear_apply (W : matrix) (b : list R) (x : list R) : list R :=
  zip_with (fun row bi => (dot x row + bi)%R) W b.

Definition matrix_add (a b : matrix) : matrix :=
  zip_with (zip_with Rplus) a b.

(** The state [optim.Adam] keeps for one parameter. *)
Record adam_entry : Type :=
  { steps : nat; exp_avg : matrix; exp_avg_sq : matrix }.

(** A parameter-state snapshot: [state_dict()]. *)
Abbreviation state_dict_t := (gmap string matrix).

(** File-system paths as their components; [parent] is [Path.parent]. *)
Abbreviation Path := (list string).

Definition parent (p : Path) : Path := removelast p.

(** A path argument is a [str] or a [Path]; [Path(path)] converts. *)
Inductive pathlike : Type :=
  | Str (p : Path)
  | PathObj (p : Path).

Definition as_Path (p : pathlike) : Path :=
  match p with
  | Str p => p
  | PathObj p => p
  end.

Inductive blob : Type :=
  | Snapshot (sd : state_dict_t)
  | Other.

Inductive node : Type :=
  | Directory
  | File (content : blob).

Abbreviation filesystem := (gmap Path node).

(** [path.exists()]. *)
Definition exists_ (fs : filesystem) (p : Path) : bool :=
  bool_decide (is_Some (fs !! p)).

(** [path.mkdir()], without [parents] and without [exist_ok]. *)
Definition mkdir (fs : filesystem) (p : Path) : result filesystem :=
  match fs !! p with
  | Some _ => Raise FileExistsError
  | None =>
      match fs !! parent p with
      | Some Directory => Ok (<[p := Directory]> fs)
      | _ => Raise FileNotFoundError
      end
  end.

(** [torch.save(sd, path)]. *)
Definition torch_save (fs : filesystem) (sd : state_dict_t) (p : Path)
  : result filesystem :=
  match fs !! p with
  | Some Directory => Raise IsADirectoryError
  | _ =>
      match fs !! parent p with
      | Some Directory => Ok (<[p := File (Snapshot sd)]> fs)
      | _ => Raise FileNotFoundError
      end
  end.

(** [torch.load(path)]. *)
Definition torch_load (fs : filesystem) (p : Path) : result state_dict_t :=
  match fs !! p with
  | None => Raise FileNotFoundError
  | Some Directory => Raise IsADirectoryError
  | Some (File Other) => Raise UnpicklingError
  | Some (File (Snapshot sd)) => Ok sd
  end.

(** How a class binds a name that the code reads as [self.name]: through
    a [@property], which yields the object, or as a plain method without
    arguments, which yields a bound method returning the object.  Either
    way the object is computed from [self]. *)
Inductive binding (A : Type) : Type :=
  | Property (a : A)
  | Method (a : A).
Arguments Property {A} a.
Arguments Method {A} a.

(** The values an attribute of a model can hold, as far as the code of
    this file distinguishes them. *)
Inductive pyobj : Type :=
  | OPath (p : Path)
  | ODevice (d : Device.device)
  | OBool (b : bool)
  | ONat (n : nat)
  | OShape (dims : nat * nat)
  | OSubmodule (name : string)
  | OOptimizer
  | OBoundMethod (name : string).

(** [o.parent]: only a path has one. *)
Definition parent_of (o : pyobj) : result Path :=
  match o with
  | OPath p => Ok (parent p)
  | _ => Raise AttributeError
  end.

(** What a function returning [self] or nothing returns. *)
Inductive returned : Type :=
  | ReturnsSelf
  | ReturnsNone.

End Torch.

(** ** The trainable-model contract: [ModelBaseClass] *)

Module Base.
Import Batching Torch.

(** A batch of encoded documents, its labels, and the scores per
    document. *)
Abbreviation inputs := (list (list nat)).
Abbreviation targets := (list nat).
Abbreviation predictions := (list (list R)).

(** A loss evaluator such as [nn.CrossEntropyLoss()]. *)
Definition evaluator : Type := predictions -> targets -> result R.

(** The two methods of an optimizer the training step uses; each changes
    the parameters of the model the optimizer was built for. *)
Record optimizer_handle (M : Type) : Type :=
  { zero_grad : M -> M; opt_step : M -> M }.
Arguments zero_grad {M} o.
Arguments opt_step {M} o.

(** The abstract members of [ModelBaseClass] ([forward], [loss],
    [optimizer]) and the [nn.Module] operations its methods rely on.
    [backward] is [loss.backward()] for the loss of [forward] on the given
    batch. *)
Class ModelBaseClass (M : Type) : Type :=
  { forward : M -> inputs -> result predictions;
    loss : binding (M -> evaluator);
    optimizer : binding (M -> optimizer_handle M);
    backward : M -> inputs -> targets -> M;
    train : M -> M;
    state_dict : M -> state_dict_t;
    load_state_dict : M -> state_dict_t -> result M;
    getattr : M -> string -> result pyobj }.

(** [self.name()]: a bound method returns its object; the object behind a
    property is called without arguments instead, which neither an
    optimizer (not callable) nor a loss evaluator (two arguments missing)
    accepts. *)
Definition call0 {M A : Type} (b : binding (M -> A)) (self : M) : result A :=
  match b with
  | Method get => Ok (get self)
  | Property _ => Raise TypeError
  end.

(** [self.name(x, y)]: the object behind a property is applied to the
    arguments; a bound method without parameters rejects them. *)
Definition call_with {M A B : Type} (b : binding (M -> A)) (self : M)
  (apply : A -> result B) : result B :=
  match b with
  | Property get => apply (get self)
  | Method _ => Raise TypeError
  end.

Section Generic.
Context {M : Type} `{ModelBaseClass M}.
Variable permutation_of : nat -> nat -> list nat.

(** [validation], under [torch.no_grad()]: no gradient is recorded, and
    the function has no access to a new model value. *)
Definition validation (self : M) (data : inputs) (tgt : targets)
  : result R :=
  predictions ← forward self data;
  loss ← call_with loss self (fun ev => ev predictions tgt);
  Ok loss.

Definition step (self : M) (input_data : inputs) (expected_output : targets)
  : result (R * M) :=
  opt ← call0 optimizer self;
  let self := zero_grad opt self in
  predictions ← forward self input_data;
  ev ← call0 loss self;
  loss ← ev predictions expected_output;
  let self := backward self input_data expected_output in
  opt ← call0 optimizer self;
  let self := opt_step opt self in
  Ok (loss, self).

(** The inner loop of [update] over [zip(data, targets)]; the progress
    line printed after each batch is not modelled. *)
Fixpoint run_batches (self : M) (batches : list (inputs * targets))
  (total_loss : R) : result (R * M) :=
  match batches with
  | [] => Ok (total_loss, self)
  | (input_val, target) :: rest =>
      '(loss, self) ← step self input_val target;
      run_batches self rest (total_loss + loss)%R
  end.

(** The outer loop of [update]: [epochs] rounds over the same [data] and
    [targets]; [total_loss /= len(data)] divides by zero when there is no
    batch. *)
Fixpoint run_epochs (epochs : nat) (self : M) (data : list inputs)
  (tgts : list targets) (total_loss : R) : result (R * M) :=
  match epochs with
  | O => Ok (total_loss, self)
  | S epochs' =>
      '(total_loss, self) ← run_batches self (zip data tgts) 0%R;
      if (length data =? 0)%nat then Raise ZeroDivisionError
      else run_epochs epochs' self data tgts
             (total_loss / INR (length data))%R
  end.

(** [update]; the decorator [use_gpu] around it only changes where its
    arguments are placed. *)
Definition update (g : rng) (self : M) (data : inputs) (tgt : targets)
  (batch_size epochs : nat) : result (R * M * rng) :=
  let self := train self in
  let total_loss := 0%R in
  '(data, tgts, g) ← create_batches permutation_of g data tgt batch_size;
  '(total_loss, self) ← run_epochs epochs self data tgts total_loss;
  Ok (total_loss, self, g).

(** [load_model]. *)
Definition load_model (self : M) (fs : filesystem) (path : pathlike)
  : result (M * returned) :=
  let path := as_Path path in
  if exists_ fs path then
    model_dict ← torch_load fs path;
    self ← load_state_dict self model_dict;
    Ok (self, ReturnsSelf)
  else Ok (self, ReturnsNone).

(** [save_model]; the directory test reads [self._path], not [path]. *)
Definition save_model (self : M) (fs : filesystem) (path : pathlike)
  : result filesystem :=
  let path := as_Path path in
  _path ← getattr self "_path";
  dir ← parent_of _path;
  fs ← (if negb (exists_ fs dir) then mkdir fs dir else Ok fs);
  torch_save fs (state_dict self) path.

End Generic.

End Base.

(** ** The sequence classifier: [GloveEmbedding] and [LSTM] *)

Module Classifier.
Import Batching Torch Base.

Record GloveEmbedding : Type :=
  { weight : parameter;
    padding_idx : nat;
    (** the plain attribute [self.requires_grad] *)
    module_requires_grad : bool }.

Record GRU : Type :=
  { weight_ih_l0 : parameter;
    weight_hh_l0 : parameter;
    bias_ih_l0 : parameter;
    bias_hh_l0 : parameter }.

Record Linear : Type :=
  { linear_weight : parameter; linear_bias : parameter }.

(** The attributes of an [LSTM].  [loss_function], an
    [nn.CrossEntropyLoss] and as such without state, has no field: it is
    the kernel [cross_entropy] below.  [adam] is the state of the
    optimizer, by parameter name. *)
Record LSTM : Type :=
  { device : Device.device;
    use_tensorboard : bool;
    embedding : GloveEmbedding;
    hidden_size : nat;
    gru : GRU;
    linear : Linear;
    adam : gmap string adam_entry;
    weight_shape : nat * nat;
    use_avg : bool;
    training : bool }.

(** [nn.Embedding.__init__] normalises [padding_idx]: a negative index
    counts from the end once it is checked against the number of rows. *)
Definition normalise_padding_idx (num_embeddings : nat) (idx : Z)
  : result nat :=
  if (0 <=? idx)%Z then
    if (idx <? Z.of_nat num_embeddings)%Z then Ok (Z.to_nat idx)
    else Raise AssertionError
  else
    if (- Z.of_nat num_embeddings <=? idx)%Z
    then Ok (Z.to_nat (Z.of_nat num_embeddings + idx))
    else Raise AssertionError.

(** [GloveEmbedding.__init__]: the randomly initialised table of
    [nn.Embedding] is overwritten by [load_state_dict], which insists on
    equal shapes; then both [requires_grad] flags are set. *)
Definition GloveEmbedding_init (weights : matrix)
  (num_embeddings embedding_dim : nat) (padding : Z)
  (train_embedding : bool) : result GloveEmbedding :=
  padding ← normalise_padding_idx num_embeddings padding;
  if bool_decide (shape weights = (num_embeddings, embedding_dim)) then
    Ok {| weight := {| data := weights;
                       requires_grad := train_embedding;
                       grad := None |};
          padding_idx := padding;
          module_requires_grad := train_embedding |}
  else Raise RuntimeError.

Definition fresh_parameter (t : matrix) : parameter :=
  {| data := t; requires_grad := true; grad := None |}.

Definition set_data (t : matrix) (p : parameter) : parameter :=
  {| data := t; requires_grad := requires_grad p; grad := grad p |}.

Definition set_grad (g : option matrix) (p : parameter) : parameter :=
  {| data := data p; requires_grad := requires_grad p; grad := g |}.

(** The parameters in the order and under the names of [state_dict()]. *)
Definition named_parameters (m : LSTM) : list (string * parameter) :=
  [ ("embedding.weight", weight (embedding m));
    ("gru.weight_ih_l0", weight_ih_l0 (gru m));
    ("gru.weight_hh_l0", weight_hh_l0 (gru m));
    ("gru.bias_ih_l0", bias_ih_l0 (gru m));
    ("gru.bias_hh_l0", bias_hh_l0 (gru m));
    ("linear.weight", linear_weight (linear m));
    ("linear.bias", linear_bias (linear m)) ].

(** An in-place change of every parameter. *)
Definition map_parameters (f : string -> parameter -> parameter) (m : LSTM)
  : LSTM :=
  {| device := device m;
     use_tensorboard := use_tensorboard m;
     embedding :=
       {| weight := f "embedding.weight" (weight (embedding m));
          padding_idx := padding_idx (embedding m);
          module_requires_grad := module_requires_grad (embedding m) |};
     hidden_size := hidden_size m;
     gru :=
       {| weight_ih_l0 := f "gru.weight_ih_l0" (weight_ih_l0 (gru m));
          weight_hh_l0 := f "gru.weight_hh_l0" (weight_hh_l0 (gru m));
          bias_ih_l0 := f "gru.bias_ih_l0" (bias_ih_l0 (gru m));
          bias_hh_l0 := f "gru.bias_hh_l0" (bias_hh_l0 (gru m)) |};
     linear :=
       {| linear_weight := f "linear.weight" (linear_weight (linear m));
          linear_bias := f "linear.bias" (linear_bias (linear m)) |};
     adam := adam m;
     weight_shape := weight_shape m;
     use_avg := use_avg m;
     training := training m |}.

Definition set_adam (a : gmap string adam_entry) (m : LSTM) : LSTM :=
  {| device := device m; use_tensorboard := use_tensorboard m;
     embedding := embedding m; hidden_size := hidden_size m;
     gru := gru m; linear := linear m; adam := a;
     weight_shape := weight_shape m; use_avg := use_avg m;
     training := training m |}.

Definition set_training (b : bool) (m : LSTM) : LSTM :=
  {| device := device m; use_tensorboard := use_tensorboard m;
     embedding := embedding m; hidden_size := hidden_size m;
     gru := gru m; linear := linear m; adam := adam m;
     weight_shape := weight_shape m; use_avg := use_avg m;
     training := b |}.

Definition set_use_avg (b : bool) (m : LSTM) : LSTM :=
  {| device := device m; use_tensorboard := use_tensorboard m;
     embedding := embedding m; hidden_size := hidden_size m;
     gru := gru m; linear := linear m; adam := adam m;
     weight_shape := weight_shape m; use_avg := b;
     training := training m |}.

Definition zeros_like (t : matrix) : matrix := map (map (fun _ => 0%R)) t.

(** The recurrence of [nn.GRU] over one document, in time order, from the
    initial hidden state [h]; one output per time step. *)
Fixpoint gru_scan (cell : list R -> list R -> list R) (h : list R)
  (xs : list (list R)) : list (list R) :=
  match xs with
  | [] => []
  | x :: xs' => let h' := cell x h in h' :: gru_scan cell h' xs'
  end.

(** [output[:, -1, :]] for one document: the entry at the last time step. *)
Definition last_step {A : Type} (steps : list A) : result A :=
  match length steps with
  | O => Raise IndexError
  | S n => getitem steps n
  end.

(** The names bound in the instance by the two constructors and by
    [nn.Module], then the methods of the two classes. *)
Definition instance_attributes (m : LSTM) : list (string * pyobj) :=
  [ ("training", OBool (training m));
    ("device", ODevice (device m));
    ("use_tensorboard", OBool (use_tensorboard m));
    ("embedding", OSubmodule "embedding");
    ("hidden_size", ONat (hidden_size m));
    ("gru", OSubmodule "gru");
    ("linear", OSubmodule "linear");
    ("loss_function", OSubmodule "loss_function");
    ("adam", OOptimizer);
    ("weight_shape", OShape (weight_shape m));
    ("use_avg", OBool (use_avg m)) ].

Definition class_attributes : list string :=
  [ "optimizer"; "loss"; "forward"; "print_loss"; "get_indices";
    "validation"; "step"; "update"; "get_batches"; "create_batches";
    "load_model"; "save_model"; "init_hidden"; "save"; "load" ].

Fixpoint assoc {A : Type} (name : string) (l : list (string * A))
  : option A :=
  match l with
  | [] => None
  | (k, v) :: l' => if String.eqb k name then Some v else assoc name l'
  end.

Definition LSTM_getattr (m : LSTM) (name : string) : result pyobj :=
  match assoc name (instance_attributes m) with
  | Some o => Ok o
  | None =>
      if existsb (String.eqb name) class_attributes
      then Ok (OBoundMethod name)
      else Raise AttributeError
  end.

Definition LSTM_state_dict (m : LSTM) : state_dict_t :=
  list_to_map (map (fun '(name, p) => (name, data p)) (named_parameters m)).

(** [load_state_dict], strict: the keys of the snapshot are exactly the
    names of the parameters and every tensor has the shape of the
    parameter it replaces. *)
Definition LSTM_load_state_dict (m : LSTM) (sd : state_dict_t)
  : result LSTM :=
  if bool_decide (dom sd = dom (LSTM_state_dict m))
     && forallb (fun '(name, p) =>
                   bool_decide (shape <$> sd !! name = Some (shape (data p))))
                (named_parameters m)
  then Ok (map_parameters
             (fun name p => set_data (default (data p) (sd !! name)) p) m)
  else Raise RuntimeError.

(** An embedding table that takes no part in training. *)
Definition frozen (m : LSTM) : Prop :=
  requires_grad (weight (embedding m)) = false
  /\ grad (weight (embedding m)) = None.

Section Kernels.

(** The numeric kernels and random initialisers of PyTorch. *)
Variable gru_cell : GRU -> list R -> list R -> list R.
Variable cross_entropy : evaluator.
Variable gradient : LSTM -> inputs -> targets -> string -> matrix.
Variable adam_rule : adam_entry -> matrix -> matrix -> matrix * adam_entry.
Variable random_matrix : string -> nat -> nat -> matrix.

(** [ModelBaseClass.__init__] then [LSTM.__init__].  [SummaryWriter] is
    not imported, so asking for it raises [NameError].  The argument
    [use_avg] is not read. *)
Definition LSTM_init (weights : matrix) (classes : nat) (use_avg_arg : bool)
  (hidden : nat) (dev : Device.device) (tensorboard : bool) : result LSTM :=
  if tensorboard then Raise NameError else
  emb ← GloveEmbedding_init weights (fst (shape weights))
          (snd (shape weights)) (Z.of_nat (length weights) - 1) false;
  let input_size := snd (shape weights) in
  Ok {| device := dev;
        use_tensorboard := tensorboard;
        embedding := emb;
        hidden_size := hidden;
        gru :=
          {| weight_ih_l0 := fresh_parameter
               (random_matrix "gru.weight_ih_l0" (3 * hidden) input_size);
             weight_hh_l0 := fresh_parameter
               (random_matrix "gru.weight_hh_l0" (3 * hidden) hidden);
             bias_ih_l0 := fresh_parameter
               (random_matrix "gru.bias_ih_l0" 1 (3 * hidden));
             bias_hh_l0 := fresh_parameter
               (random_matrix "gru.bias_hh_l0" 1 (3 * hidden)) |};
        linear :=
          {| linear_weight := fresh_parameter
               (random_matrix "linear.weight" classes hidden);
             linear_bias := fresh_parameter
               (random_matrix "linear.bias" 1 classes) |};
        adam := ∅;
        weight_shape := shape weights;
        use_avg := true;
        training := true |}.

(** [init_hidden]: a zero state per document of the batch. *)
Definition init_hidden (m : LSTM) : list R := repeat 0%R (hidden_size m).

(** [LSTM.forward]; the decorator [use_gpu] around it only changes where
    its arguments are placed. *)
Definition LSTM_forward (m : LSTM) (data : inputs) : result predictions :=
  embedding ←
    traverse (traverse (getitem (Torch.data (weight (embedding m))))) data;
  let hidden := init_hidden m in
  let output := map (gru_scan (gru_cell (gru m)) hidden) embedding in
  let output :=
    map (map (linear_apply
                (Torch.data (linear_weight (linear m)))
                (hd [] (Torch.data (linear_bias (linear m)))))) output in
  let output :=
    if negb (training m) then map (map softmax_row) output else output in
  traverse last_step output.

(** [optim.Adam.zero_grad]. *)
Definition adam_zero_grad (m : LSTM) : LSTM :=
  map_parameters (fun _ p => set_grad None p) m.

(** [loss.backward()]: a gradient is accumulated into every parameter
    that requires one. *)
Definition LSTM_backward (m : LSTM) (x : inputs) (y : targets) : LSTM :=
  map_parameters
    (fun name p =>
       if requires_grad p then
         let g := gradient m x y name in
         set_grad (Some match grad p with
                        | None => g
                        | Some old => matrix_add old g
                        end) p
       else p) m.

Definition adam_entry_of (m : LSTM) (name : string) (p : parameter)
  : adam_entry :=
  default {| steps := 0; exp_avg := zeros_like (data p);
             exp_avg_sq := zeros_like (data p) |} (adam m !! name).

(** [optim.Adam.step]: parameters without a gradient are skipped. *)
Definition adam_step (m : LSTM) : LSTM :=
  let m' :=
    map_parameters
      (fun name p =>
         match grad p with
         | None => p
         | Some g => set_data (fst (adam_rule (adam_entry_of m name p)
                                               (data p) g)) p
         end) m in
  set_adam
    (foldl (fun st '(name, p) =>
              match grad p with
              | None => st
              | Some g => <[name := snd (adam_rule (adam_entry_of m name p)
                                                     (data p) g)]> st
              end) (adam m) (named_parameters m)) m'.

(** [LSTM] binds [loss] and [optimizer] as plain methods, which return
    [self.loss_function], the cross-entropy evaluator, and [self.adam]. *)
#[export] Instance LSTM_model : ModelBaseClass LSTM :=
  {| forward := LSTM_forward;
     loss := Method (fun _ => cross_entropy);
     optimizer := Method (fun _ =>
       {| zero_grad := adam_zero_grad; opt_step := adam_step |});
     backward := LSTM_backward;
     train := set_training true;
     state_dict := LSTM_state_dict;
     load_state_dict := LSTM_load_state_dict;
     getattr := LSTM_getattr |}.




(** [LSTM.save], the checkpoint writer the training script uses. *)
Definition LSTM_save (m : LSTM) (fs : filesystem) (path : Path)
  : result filesystem :=
  torch_save fs (LSTM_state_dict m) path.

End Kernels.

End Classifier.

(** ** The weight matrix: [get_weights] *)

Module Weights.
Import Batching Torch.

(** [s.split(sep)] for a one-character separator: never empty, and empty
    fields are kept. *)
Fixpoint split (sep : Ascii.ascii) (s : string) : list string :=
  match s with
  | EmptyString => [EmptyString]
  | String c s' =>
      if Ascii.eqb c sep then EmptyString :: split sep s'
      else match split sep s' with
           | [] => [String c EmptyString]
           | w :: ws => String c w :: ws
           end
  end.

Section Kernels.

(** [float64] conversion of one field, and the [k]-th vector drawn by
    [np.random.random] for a given length. *)
Variable float_of_string : string -> result R.
Variable random_vector : nat -> nat -> list R.

(** The loop over the lines of the resource. *)
Definition read_line (acc : result (gmap string nat * list (list R)))
  (entry : nat * string) : result (gmap string nat * list (list R)) :=
  '(word_indices, weights) ← acc;
  let '(i, line) := entry in
  let line := split " "%char line in
  word ← getitem line 0;
  let word_indices := <[word := i]> word_indices in
  vector ← traverse float_of_string (tail line);
  Ok (word_indices, weights ++ [vector]).

(** The loop over the vocabulary, with the running [idx] and the
    generator. *)
Definition add_word
  (acc : result (gmap string nat * list (list R) * nat * rng))
  (word : string) : result (gmap string nat * list (list R) * nat * rng) :=
  '(word_indices, weights, idx, g) ← acc;
  if bool_decide (word ∉ dom word_indices) then
    first ← getitem weights 0;
    let vector := random_vector (draws g) (length first) in
    Ok (<[word := idx]> word_indices, weights ++ [vector], S idx,
        {| draws := S (draws g) |})
  else Ok (word_indices, weights, idx, g).

(** [get_weights] on the lines of the opened file; [vocab] is given in
    the order in which it is iterated. *)
Definition get_weights (lines : list string) (vocab : list string)
  (add_zero : bool) (g : rng)
  : result (gmap string nat * list (list R) * rng) :=
  '(word_indices, weights) ←
    foldl read_line (Ok (∅, [])) (imap (fun i line => (i, line)) lines);
  let idx := length weights in
  '(word_indices, weights, idx, g) ←
    foldl add_word (Ok (word_indices, weights, idx, g)) vocab;
  if add_zero then
    first ← getitem weights 0;
    Ok (word_indices, weights ++ [repeat 0%R (length first)], g)
  else Ok (word_indices, weights, g).

End Kernels.



End Weights.

(** ** Probes and sample instances *)

Module Samples.
Import Batching Torch Base Classifier.

(** A model that records, in order, the batches its training step is
    given: the gradient computation appends the batch to the log, and
    nothing else changes the log. *)
Abbreviation recorder := (list (inputs * targets)).

#[export] Instance recorder_model : ModelBaseClass recorder :=
  {| forward := fun _ _ => Ok [];
     loss := Method (fun _ _ _ => Ok 0%R);
     optimizer := Method (fun _ =>
       {| zero_grad := fun seen => seen; opt_step := fun seen => seen |});
     backward := fun (seen : recorder) x y => seen ++ [(x, y)];
     train := fun seen => seen;
     state_dict := fun _ => ∅;
     load_state_dict := fun seen _ => Ok seen;
     getattr := fun _ _ => Raise AttributeError |}.

(** Kernels that are easy to run: the cell adds the input to the state,
    the loss is zero, gradients are zero and the optimizer moves a
    parameter by its gradient. *)
Definition sample_cell (_ : GRU) (x h : list R) : list R :=
  zip_with Rplus x h.

Definition sample_loss : evaluator := fun _ _ => Ok 0%R.

Definition sample_gradient (m : LSTM) (_ : inputs) (_ : targets)
  (name : string) : matrix :=
  zeros_like (default [] (LSTM_state_dict m !! name)).

Definition sample_rule (e : adam_entry) (p g : matrix)
  : matrix * adam_entry :=
  (matrix_add p g,
   {| steps := S (steps e); exp_avg := g; exp_avg_sq := g |}).

Definition sample_random (_ : string) (rows cols : nat) : matrix :=
  repeat (repeat 1%R cols) rows.

Definition sample_model : ModelBaseClass LSTM :=
  LSTM_model sample_cell sample_loss sample_gradient sample_rule.

(** A vocabulary of two words and the padding row. *)
Definition sample_weights : matrix :=
  [[1; 2]; [3; 4]; [0; 0]]%R.

Definition sample_init : result LSTM :=
  LSTM_init sample_random sample_weights 2 false 2 Device.Cpu false.

(** A reader of unsigned decimal fields, and a generator whose [k]-th
    vector repeats [k + 1]. *)
Definition digit (c : Ascii.ascii) : option nat :=
  let n := Ascii.nat_of_ascii c in
  if (48 <=? n)%nat && (n <=? 57)%nat then Some (n - 48) else None.

Fixpoint parse_nat (acc : nat) (s : string) : option nat :=
  match s with
  | EmptyString => Some acc
  | String c s' =>
      match digit c with
      | Some d => parse_nat (10 * acc + d) s'
      | None => None
      end
  end.

Definition sample_float (s : string) : result R :=
  match s with
  | EmptyString => Raise ValueError
  | _ => match parse_nat 0 s with
         | Some n => Ok (IZR (Z.of_nat n))
         | None => Raise ValueError
         end
  end.

Definition sample_vector (k n : nat) : list R :=
  repeat (IZR (Z.of_nat (S k))) n.

(** A generator that alternates between two orders. *)
Definition alternating (k n : nat) : list nat :=
  if Nat.even k then seq 0 n else rev (seq 0 n).

End Samples.

(** ** Text cleaning, vocabulary and encoding: [filter_text],
       [get_vocab], [encode_documents] *)

Module Text.

(** Text is taken to be ASCII: the class [\w] of the handle pattern is
    read as letters, digits and the underscore. *)
Definition is_upper (c : Ascii.ascii) : bool :=
  let n := Ascii.nat_of_ascii c in (65 <=? n)%nat && (n <=? 90)%nat.

Definition is_lower (c : Ascii.ascii) : bool :=
  let n := Ascii.nat_of_ascii c in (97 <=? n)%nat && (n <=? 122)%nat.

Definition is_digit (c : Ascii.ascii) : bool :=
  let n := Ascii.nat_of_ascii c in (48 <=? n)%nat && (n <=? 57)%nat.

Definition is_letter (c : Ascii.ascii) : bool := is_upper c || is_lower c.

Definition is_word (c : Ascii.ascii) : bool :=
  is_letter c || is_digit c || Ascii.eqb c "_".

(** How many characters the greedy [(\w){1,15}] takes at the head of
    [s]: the word characters there, fifteen at most. *)
Fixpoint handle_length (budget : nat) (s : string) : nat :=
  match budget, s with
  | S budget', String c s' =>
      if is_word c then S (handle_length budget' s') else 0
  | _, _ => 0
  end.

(** [re.sub("@(\w){1,15}", "", text)], scanning from the left; [skip]
    counts the characters of the current match still to drop.  An [@]
    that no word character follows is no match and stays. *)
Fixpoint sub_handles (skip : nat) (text : string) : string :=
  match text with
  | EmptyString => EmptyString
  | String c text' =>
      match skip with
      | S skip' => sub_handles skip' text'
      | O =>
          if Ascii.eqb c "@" then
            match handle_length 15 text' with
            | O => String c (sub_handles 0 text')
            | S n => sub_handles (S n) text'
            end
          else String c (sub_handles 0 text')
      end
  end.

(** [re.sub("\n", " ", text)]. *)
Fixpoint sub_newlines (text : string) : string :=
  match text with
  | EmptyString => EmptyString
  | String c text' =>
      String (if Ascii.eqb c "010" then " "%char else c) (sub_newlines text')
  end.

(** [re.sub("'", "", text)]. *)
Fixpoint sub_quotes (text : string) : string :=
  match text with
  | EmptyString => EmptyString
  | String c text' =>
      if Ascii.eqb c "'" then sub_quotes text'
      else String c (sub_quotes text')
  end.

(** [alphabet.sub(" ", text)] for [alphabet = "[^A-Za-z ]+"]: every
    maximal run of characters that are neither letters nor spaces becomes
    one space; [in_run] tells that such a run is being read. *)
Definition is_kept (c : Ascii.ascii) : bool :=
  is_letter c || Ascii.eqb c " ".

Fixpoint sub_alphabet (in_run : bool) (text : string) : string :=
  match text with
  | EmptyString => EmptyString
  | String c text' =>
      if is_kept c then String c (sub_alphabet false text')
      else if in_run then sub_alphabet true text'
      else String " " (sub_alphabet true text')
  end.

(** [x.lower()] on a string of ASCII characters. *)
Definition lower_char (c : Ascii.ascii) : Ascii.ascii :=
  if is_upper c then Ascii.ascii_of_nat (Ascii.nat_of_ascii c + 32) else c.

Fixpoint lower (s : string) : string :=
  match s with
  | EmptyString => EmptyString
  | String c s' => String (lower_char c) (lower s')
  end.

Definition nonempty (s : string) : bool :=
  match s with
  | EmptyString => false
  | String _ _ => true
  end.

(** Every character of [s] satisfies [p]. *)
Fixpoint all_chars (p : Ascii.ascii -> bool) (s : string) : bool :=
  match s with
  | EmptyString => true
  | String c s' => p c && all_chars p s'
  end.

Definition filter_text (text : string) : list string :=
  let text := sub_handles 0 text in
  let text := sub_newlines text in
  let text := sub_quotes text in
  let text := Weights.split " " (sub_alphabet false text) in
  let words := List.filter nonempty text in
  map lower words.

(** [get_vocab]. *)
Definition get_vocab (documents : list (list string)) : gset string :=
  foldl (fun vocab document =>
           foldl (fun vocab word => {[word]} ∪ vocab) vocab document)
        ∅ documents.

(** A cell of a document while [encode_documents] overwrites it: still
    the word, or already its index. *)
Inductive cell : Type :=
  | Word (w : string)
  | Index (n : nat).

(** [vocab[word]] for a dictionary whose keys are strings: an index is no
    key of it. *)
Definition vocab_getitem (vocab : gmap string nat) (c : cell) : result nat :=
  match c with
  | Word w => match vocab !! w with
              | Some n => Ok n
              | None => Raise KeyError
              end
  | Index _ => Raise KeyError
  end.

(** The inner loop of [encode_documents] on one document: the document
    as the loop leaves it, and the exception if one was raised. *)
Fixpoint encode_document (vocab : gmap string nat) (document : list cell)
  : list cell * option exn :=
  match document with
  | [] => ([], None)
  | word :: rest =>
      match vocab_getitem vocab word with
      | Raise e => (word :: rest, Some e)
      | Ok n =>
          let '(rest', raised) := encode_document vocab rest in
          (Index n :: rest', raised)
      end
  end.

(** [encode_documents]: the documents are overwritten in place, one cell
    after the other, and returned; the documents are distinct lists.  The
    first component is the state of [documents] when the function
    returns or raises. *)
Fixpoint encode_documents (documents : list (list cell))
  (vocab : gmap string nat) : list (list cell) * option exn :=
  match documents with
  | [] => ([], None)
  | document :: rest =>
      match encode_document vocab document with
      | (document', Some e) => (document' :: rest, Some e)
      | (document', None) =>
          let '(rest', raised) := encode_documents rest vocab in
          (document' :: rest', raised)
      end
  end.

(** The indices of the words of a document under a vocabulary map, for
    the words it has. *)
Definition indices_of (vocab : gmap string nat) (document : list string)
  : list cell :=
  map (fun w => Index (default 0 (vocab !! w))) document.

End Text.

(** ** The checkpoint methods of [LSTM]: [load], [__call__] *)

Module Checkpoints.
Import Torch Base Classifier.

(** [LSTM.load]: [load_state_dict(torch.load(path))], then [eval()]. *)
Definition LSTM_load (m : LSTM) (fs : filesystem) (path : Path)
  : result LSTM :=
  model_dict ← torch_load fs path;
  m ← LSTM_load_state_dict m model_dict;
  Ok (set_training false m).

End Checkpoints.

(* ===================================================================== *)
(** * Properties *)
(* ===================================================================== *)

(** ** The result monad *)

Module PyFacts.

Lemma traverse_ok_map {A B : Type} (f : A -> result B) (g : A -> B)
  (l : list A) :
  Forall (fun x => f x = Ok (g x)) l -> traverse f l = Ok (map g l).
Proof.
  induction 1 as [|x l Hx _ IH]; simpl; [reflexivity|].
  rewrite Hx; simpl. rewrite IH. reflexivity.
Qed.



Lemma getitem_Some {A : Type} (a : list A) (i : nat) (x : A) :
  a !! i = Some x -> getitem a i = Ok x.
Proof. intros H. unfold getitem. rewrite H. reflexivity. Qed.


Lemma take_indices_seq {A : Type} (a : list A) (i n : nat) :
  i + n <= length a -> take_indices a (seq i n) = Ok (take n (drop i a)).
Proof.
  revert i; induction n as [|n IH]; intros i Hle; simpl.
  - rewrite take_0. reflexivity.
  - destruct (lookup_lt_is_Some_2 a i ltac:(lia)) as [x Hx].
    unfold take_indices in *. cbn [seq traverse].
    rewrite (getitem_Some _ _ _ Hx). cbn [mbind result_bind].
    rewrite IH by lia.
    rewrite (drop_S _ _ _ Hx). reflexivity.
Qed.

Lemma take_indices_range {A : Type} (a : list A) (lo hi : nat) :
  lo <= hi -> hi <= length a ->
  take_indices a (range lo hi) = Ok (take (hi - lo) (drop lo a)).
Proof. intros H1 H2. unfold range. apply take_indices_seq. lia. Qed.

End PyFacts.

Module BatchingFacts.
Import PyFacts.
Import Batching.

Example chunk_indices_7_3 :
  chunk_indices [4;2;6;0;1;5;3] 7 3 = Ok [[4;2;6];[0;1;5];[3]].
Proof. reflexivity. Qed.

Example chunk_indices_6_3 :
  chunk_indices [4;2;0;1;5;3] 6 3 = Ok [[4;2;0];[1;5;3]].
Proof. reflexivity. Qed.

(** A batch larger than the dataset gives one chunk with everything. *)
Example chunk_indices_2_5 :
  chunk_indices [1;0] 2 5 = Ok [[1;0]].
Proof. reflexivity. Qed.

Example chunk_indices_3_0 :
  chunk_indices [1;0;2] 3 0 = Raise ZeroDivisionError.
Proof. reflexivity. Qed.

Lemma concat_consecutive_chunks (s : list nat) (B n : nat) :
  concat (map (fun j => take B (drop (j * B) s)) (seq 0 n)) = take (n * B) s.
Proof.
  induction n as [|n IH].
  - reflexivity.
  - rewrite seq_S, map_app, concat_app, IH. simpl.
    rewrite app_nil_r, take_take_drop. f_equal. lia.
Qed.

Lemma full_chunks_length (s : list nat) (N B : nat) :
  length (full_chunks s N B) = N / B.
Proof. unfold full_chunks. rewrite length_map, length_seq. reflexivity. Qed.

Lemma full_chunks_sizes (s : list nat) (N B : nat) :
  length s = N -> 0 < B ->
  Forall (fun c => length c = B) (full_chunks s N B).
Proof.
  intros Hs HB. unfold full_chunks. rewrite Forall_map, Forall_forall.
  intros j Hj%elem_of_seq. simpl.
  rewrite length_take, length_drop.
  pose proof (Nat.div_mod_eq N B) as E. nia.
Qed.

Lemma full_chunks_concat (s : list nat) (N B : nat) :
  concat (full_chunks s N B) = take (N - N mod B) s.
Proof.
  unfold full_chunks. rewrite concat_consecutive_chunks. f_equal.
  pose proof (Nat.div_mod_eq N B) as E. lia.
Qed.

Lemma rest_chunk_sizes (s : list nat) (N B : nat) :
  length s = N -> Forall (fun c => length c = N mod B) (rest_chunk s N B).
Proof.
  intros Hs. unfold rest_chunk. destruct (N mod B =? 0)%nat; [constructor|].
  constructor; [|constructor]. rewrite length_drop.
  pose proof (Nat.div_mod_eq N B) as E. lia.
Qed.

Lemma chunks_concat (s : list nat) (N B : nat) :
  length s = N -> 0 < B ->
  concat (full_chunks s N B ++ rest_chunk s N B) = s.
Proof.
  intros Hs HB. rewrite concat_app, full_chunks_concat. unfold rest_chunk.
  destruct (N mod B =? 0)%nat eqn:E.
  - apply Nat.eqb_eq in E. rewrite E, Nat.sub_0_r. simpl.
    rewrite app_nil_r. apply take_ge. lia.
  - simpl. rewrite app_nil_r. apply take_drop.
Qed.

(** [chunk_indices] never fails for a positive batch size and computes the
    chunks the specification describes. *)
Lemma chunk_indices_spec (s : list nat) (N B : nat) :
  length s = N -> 0 < B ->
  chunk_indices s N B = Ok (full_chunks s N B ++ rest_chunk s N B).
Proof.
  intros Hs HB. unfold chunk_indices, mod_, range3.
  destruct (Nat.eqb_spec B 0) as [?|_]; [lia|]. cbn [mbind result_bind].
  pose proof (Nat.div_mod_eq N B) as E.
  pose proof (Nat.mod_upper_bound N B ltac:(lia)) as Hr.
  assert (Hq : (N - N mod B - 0 + (B - 1)) / B = N / B).
  { replace (N - N mod B - 0 + (B - 1)) with (N / B * B + (B - 1)) by lia.
    rewrite Nat.div_add_l by lia. rewrite (Nat.div_small (B - 1)) by lia. lia. }
  rewrite Hq.
  rewrite (traverse_ok_map _ (fun i => take B (drop i s))); cycle 1.
  { rewrite Forall_map, Forall_forall. intros j Hj%elem_of_seq. simpl.
    rewrite take_indices_range by nia. do 2 f_equal. lia. }
  cbn [mbind result_bind]. rewrite map_map. simpl.
  fold (full_chunks s N B). unfold rest_chunk.
  destruct (Nat.eqb_spec (N - N mod B) N) as [Heq|Hne]; simpl.
  - replace (N mod B) with 0 by lia. simpl. rewrite app_nil_r. reflexivity.
  - destruct (Nat.eqb_spec (N mod B) 0) as [?|_]; [lia|].
    rewrite take_indices_range by lia. simpl. do 3 f_equal.
    apply take_ge. rewrite length_drop. lia.
Qed.

(** C2, as amended.  For every dataset size [N] and batch size [B] with
    [1 <= B <= N], when the generator returns a permutation of [0, N),
    [get_indices] returns (it does not raise) chunks whose concatenation
    is that permutation, so that every index of [0, N) occurs exactly
    once; the first [N - N mod B] entries are cut into [N / B] contiguous
    chunks of exactly [B] entries, followed by one chunk with the
    remaining [N mod B] entries when that remainder is not zero.  The
    call draws exactly one permutation. *)
Theorem get_indices_partition
  (permutation_of : nat -> nat -> list nat) (g : rng) (N B : nat) :
  Permutation (permutation_of (draws g) N) (seq 0 N) ->
  1 <= B -> B <= N ->
  let shuffled := permutation_of (draws g) N in
  let chunks := full_chunks shuffled N B ++ rest_chunk shuffled N B in
  get_indices permutation_of g N B = Ok (chunks, {| draws := S (draws g) |})
  /\ concat chunks = shuffled
  /\ Permutation (concat chunks) (seq 0 N)
  /\ NoDup (concat chunks)
  /\ length (full_chunks shuffled N B) = N / B
  /\ Forall (fun c => length c = B) (full_chunks shuffled N B)
  /\ concat (full_chunks shuffled N B) = take (N - N mod B) shuffled
  /\ rest_chunk shuffled N B =
       (if (N mod B =? 0)%nat then [] else [drop (N - N mod B) shuffled])
  /\ Forall (fun c => length c = N mod B) (rest_chunk shuffled N B).
Proof.
  intros Hperm HB HBN shuffled chunks.
  assert (Hlen : length shuffled = N).
  { unfold shuffled. rewrite (Permutation_length Hperm). apply length_seq. }
  assert (Hcat : concat chunks = shuffled) by (apply chunks_concat; lia).
  repeat split.
  - unfold get_indices, np_random_permutation.
    fold shuffled. rewrite chunk_indices_spec by lia. reflexivity.
  - exact Hcat.
  - rewrite Hcat. exact Hperm.
  - rewrite Hcat. unfold shuffled. rewrite Hperm. apply NoDup_seq.
  - apply full_chunks_length.
  - apply full_chunks_sizes; lia.
  - apply full_chunks_concat.
  - apply rest_chunk_sizes; assumption.
Qed.

(** A run of the theorem: seven documents in batches of three. *)
Lemma get_indices_partition_witness :
  let perm := fun (_ n : nat) => rev (seq 0 n) in
  get_indices perm {| draws := 0 |} 7 3
    = Ok ([[6;5;4];[3;2;1];[0]], {| draws := 1 |})
  /\ Permutation (concat [[6;5;4];[3;2;1];[0]]) (seq 0 7).
Proof.
  pose proof (get_indices_partition (fun _ n => rev (seq 0 n))
                {| draws := 0 |} 7 3) as H.
  simpl in H.
  destruct H as (H1 & _ & H3 & _).
  - symmetry. apply (Permutation_rev (seq 0 7)).
  - lia.
  - lia.
  - split; [exact H1 | exact H3].
Defined.

(** C2, as stated, admits the batch size [0 <= N], for which [get_indices]
    raises [ZeroDivisionError] at [dataset_size % batch_size] and returns
    no chunks at all. *)
Lemma get_indices_zero_batch_size :
  0 <= 3
  /\ Permutation [2;0;1] (seq 0 3)
  /\ get_indices (fun _ _ => [2;0;1]) {| draws := 0 |} 3 0
       = Raise ZeroDivisionError
  /\ ~ (exists chunks g',
          get_indices (fun _ _ => [2;0;1]) {| draws := 0 |} 3 0
            = Ok (chunks, g')).
Proof.
  split; [lia|]. split.
  - simpl. apply perm_trans with [0;2;1]; [apply perm_swap|].
    apply perm_skip, perm_swap.
  - split; [reflexivity|]. intros (chunks & g' & H). discriminate H.
Qed.

End BatchingFacts.

(** ** The device-transfer decorator *)

Module DeviceFacts.
Import PyFacts Device.














(** C3.  A call with one tensor passed by position and one tensor and one
    model passed by keyword, all on the host: the wrapped function's value
    comes back as it is and the positional tensor is on the host again,
    but the two keyword arguments are still on the accelerator, in a
    dictionary that [move_back] took for a positional argument. *)
Theorem use_gpu_keyword_arguments_not_moved_back :
  use_gpu true (fun _ _ => Ok 7%Z)
    [Tensor Cpu [1%Z]; Int 5]
    [("x", Tensor Cpu [2%Z]); ("net", Model Cpu Cpu)]
  = Ok {| rv := 7%Z;
          args_after :=
            [Tensor Cpu [1%Z]; Int 5;
             Dict [("x", Tensor (Cuda 0) [2%Z]);
                   ("net", Model Cpu (Cuda 0))]];
          kwargs_after := [] |}.
Proof. vm_compute. reflexivity. Qed.

(** Had [move_back] received the keyword arguments, its keyword loop
    would have raised: it subscripts the method [to]. *)
Example move_back_keyword_raises :
  move_back [] {["x" := Cpu]} [] [("x", Tensor (Cuda 0) [2%Z])]
  = Raise TypeError.
Proof. vm_compute. reflexivity. Qed.

End DeviceFacts.

(** ** The trainable-model contract *)

Module BaseFacts.
Import Torch Base.


End BaseFacts.

(** ** The sequence classifier *)

Module ClassifierFacts.
Import PyFacts Batching Torch Base Classifier Samples.

Section WithKernels.
Variable gru_cell : GRU -> list R -> list R -> list R.
Variable cross_entropy : evaluator.
Variable gradient : LSTM -> inputs -> targets -> string -> matrix.
Variable adam_rule : adam_entry -> matrix -> matrix -> matrix * adam_entry.
Variable random_matrix : string -> nat -> nat -> matrix.

#[local] Existing Instance LSTM_model.
Local Abbreviation model := (LSTM_model gru_cell cross_entropy gradient adam_rule).
Local Abbreviation init := (LSTM_init random_matrix).

(** *** Validation *)

Lemma validation_unfold (m : LSTM) (data : inputs) (tgt : targets) :
  validation (H := model) m data tgt
  = (predictions ← LSTM_forward gru_cell m data; Raise TypeError).
Proof. reflexivity. Qed.

(** C4.  On an [LSTM], [validation] never returns a loss.  It raises:
    [TypeError] when the forward pass succeeds, because
    [self.loss(predictions, targets)] passes two arguments to the method
    [loss], which takes none; the exception of the forward pass
    otherwise.  [step] calls [self.loss()(predictions, expected_output)]
    instead. *)
Theorem validation_raises_TypeError (m : LSTM) (data : inputs)
  (tgt : targets) :
  exists e,
    validation (H := model) m data tgt = Raise e
    /\ (e = TypeError \/ LSTM_forward gru_cell m data = Raise e).
Proof.
  rewrite validation_unfold.
  destruct (LSTM_forward gru_cell m data) as [predictions|e].
  - exists TypeError. split; [reflexivity|left; reflexivity].
  - exists e. split; [reflexivity|right; reflexivity].
Qed.

(** *** Checkpoints *)

Lemma LSTM_getattr_path (m : LSTM) :
  LSTM_getattr m "_path" = Raise AttributeError.
Proof. reflexivity. Qed.

(** C8.  [save_model] raises [AttributeError] for every model, file
    system and path, before it looks at the file system: it reads
    [self._path], an attribute that no constructor sets. *)
Theorem save_model_raises_AttributeError (m : LSTM) (fs : filesystem)
  (path : pathlike) :
  save_model (H := model) m fs path = Raise AttributeError.
Proof.
  unfold save_model. cbn [getattr LSTM_model].
  rewrite LSTM_getattr_path. reflexivity.
Qed.

(** *** The flag [use_avg] *)

Lemma LSTM_init_use_avg (weights : matrix) (classes hidden : nat)
  (use_avg_arg : bool) (dev : Device.device) (tensorboard : bool) (m : LSTM) :
  init weights classes use_avg_arg hidden dev tensorboard = Ok m ->
  use_avg m = true.
Proof.
  unfold LSTM_init. destruct tensorboard; [discriminate|].
  destruct (GloveEmbedding_init _ _ _ _ _); simpl; [|discriminate].
  intros [= <-]. reflexivity.
Qed.

Lemma LSTM_init_ok (weights : matrix) (classes hidden : nat)
  (use_avg_arg : bool) (dev : Device.device) :
  weights <> [] ->
  exists m, init weights classes use_avg_arg hidden dev false = Ok m
            /\ data (weight (embedding m)) = weights
            /\ requires_grad (weight (embedding m)) = false
            /\ grad (weight (embedding m)) = None
            /\ padding_idx (embedding m) = length weights - 1
            /\ training m = true.
Proof.
  intros Hne. unfold LSTM_init, GloveEmbedding_init, normalise_padding_idx.
  assert (Hlen : 0 < length weights) by (destruct weights; simpl; [done|lia]).
  destruct (Z.leb_spec 0 (Z.of_nat (length weights) - 1)); [|lia].
  destruct (Z.ltb_spec (Z.of_nat (length weights) - 1)
                       (Z.of_nat (fst (shape weights)))) as [_|Hge];
    [|simpl in Hge; lia].
  cbn [mbind result_bind].
  rewrite bool_decide_eq_true_2 by (destruct (shape weights); reflexivity).
  cbn [mbind result_bind]. eexists. split; [reflexivity|]. simpl.
  repeat split. lia.
Qed.

(** C10.  The constructor does not read its argument [use_avg]: two calls
    that differ only in it build the same model, whose attribute
    [use_avg] is [True]; and [forward] does not read the attribute. *)
Theorem use_avg_discarded (weights : matrix) (classes hidden : nat)
  (a a' : bool) (dev : Device.device) (tensorboard : bool) :
  init weights classes a hidden dev tensorboard
    = init weights classes a' hidden dev tensorboard
  /\ (forall m, init weights classes a hidden dev tensorboard = Ok m ->
                use_avg m = true)
  /\ (forall m b data,
        LSTM_forward gru_cell (set_use_avg b m) data
          = LSTM_forward gru_cell m data).
Proof.
  split; [reflexivity|]. split.
  - intros m. apply LSTM_init_use_avg.
  - reflexivity.
Qed.

(** *** Loading a checkpoint *)

Lemma assoc_map {A B : Type} (g : string -> A -> B) (k : string)
  (l : list (string * A)) :
  assoc k (map (fun '(n, p) => (n, g n p)) l) = g k <$> assoc k l.
Proof.
  induction l as [|[n p] l IH]; simpl; [reflexivity|].
  destruct (String.eqb_spec n k) as [->|_]; [reflexivity|exact IH].
Qed.

Lemma list_to_map_assoc {A : Type} (k : string) (l : list (string * A)) :
  (list_to_map l : gmap string A) !! k = assoc k l.
Proof.
  induction l as [|[n p] l IH]; simpl.
  - apply lookup_empty.
  - rewrite lookup_insert. destruct (String.eqb_spec n k) as [->|Hne].
    + rewrite decide_True by reflexivity. reflexivity.
    + rewrite decide_False by exact Hne. exact IH.
Qed.

Lemma state_dict_lookup (m : LSTM) (k : string) :
  LSTM_state_dict m !! k = data <$> assoc k (named_parameters m).
Proof.
  unfold LSTM_state_dict.
  etrans; [apply list_to_map_assoc|]. apply (assoc_map (fun _ => data)).
Qed.

Lemma named_parameters_assoc (m : LSTM) (name : string) (p : parameter) :
  (name, p) ∈ named_parameters m -> assoc name (named_parameters m) = Some p.
Proof.
  unfold named_parameters. rewrite !elem_of_cons, elem_of_nil.
  intros [H|[H|[H|[H|[H|[H|[H|[]]]]]]]]; injection H as -> ->; reflexivity.
Qed.

Lemma load_state_dict_ok (m : LSTM) (sd : state_dict_t) :
  shape <$> sd = shape <$> LSTM_state_dict m ->
  exists m', LSTM_load_state_dict m sd = Ok m' /\ LSTM_state_dict m' = sd.
Proof.
  intros Hshape. unfold LSTM_load_state_dict.
  assert (Hdom : dom sd = dom (LSTM_state_dict m)).
  { rewrite <- (dom_fmap_L shape sd), Hshape. apply dom_fmap_L. }
  rewrite (bool_decide_eq_true_2 _ Hdom), andb_true_l.
  match goal with
  | |- context [forallb ?f ?l] => assert (Hall : forallb f l = true)
  end.
  { apply forallb_forall. intros [name p] Hin%list_elem_of_In.
    cbv beta iota. apply bool_decide_eq_true_2.
    rewrite <- lookup_fmap, Hshape, lookup_fmap, state_dict_lookup.
    rewrite (named_parameters_assoc _ _ _ Hin). reflexivity. }
  rewrite Hall. eexists. split; [reflexivity|].
  apply map_eq. intros k. rewrite state_dict_lookup.
  change (named_parameters (map_parameters ?g m))
    with (map (fun '(n, p) => (n, g n p)) (named_parameters m)).
  rewrite assoc_map.
  pose proof (state_dict_lookup m k) as Hk.
  destruct (assoc k (named_parameters m)) as [p|]; simpl in *.
  - assert (Hin : k ∈ dom sd).
    { rewrite Hdom. apply elem_of_dom. rewrite Hk. eauto. }
    apply elem_of_dom in Hin as [v Hv]. rewrite Hv. reflexivity.
  - symmetry. apply not_elem_of_dom. rewrite Hdom.
    apply not_elem_of_dom. exact Hk.
Qed.


(** *** The training step and the embedding table *)

Lemma set_grad_None_id (p : parameter) : grad p = None -> set_grad None p = p.
Proof. destruct p; simpl; intros ->; reflexivity. Qed.

Lemma step_unfold (m : LSTM) (x : inputs) (y : targets) :
  step (H := model) m x y =
    (predictions ← LSTM_forward gru_cell (adam_zero_grad m) x;
     loss ← cross_entropy predictions y;
     Ok (loss, adam_step adam_rule
                 (LSTM_backward gradient (adam_zero_grad m) x y))).
Proof. reflexivity. Qed.

(** One step leaves a frozen embedding table as it is, and frozen. *)
Lemma step_embedding (m m' : LSTM) (x : inputs) (y : targets) (l : R) :
  frozen m -> step (H := model) m x y = Ok (l, m') ->
  embedding m' = embedding m /\ frozen m'.
Proof.
  intros [Hr Hg] Hstep. rewrite step_unfold in Hstep.
  destruct (LSTM_forward _ _ _) as [pred|]; [|discriminate].
  cbn [mbind result_bind] in Hstep.
  destruct (cross_entropy pred y) as [l0|]; [|discriminate].
  cbn [mbind result_bind] in Hstep. injection Hstep as _ <-.
  assert (E : embedding (adam_step adam_rule
                (LSTM_backward gradient (adam_zero_grad m) x y))
              = embedding m).
  { unfold adam_step, set_adam, LSTM_backward, adam_zero_grad, map_parameters.
    cbn [embedding weight padding_idx module_requires_grad
         requires_grad grad set_grad].
    rewrite Hr. cbn [grad set_grad].
    destruct (embedding m) as [w pad flag]. simpl in *.
    rewrite (set_grad_None_id w Hg). reflexivity. }
  split; [exact E|]. unfold frozen. rewrite E. split; assumption.
Qed.

(** The same over the batches of an epoch. *)
Lemma run_batches_embedding (batches : list (inputs * targets))
  (m m' : LSTM) (t l : R) :
  frozen m -> run_batches (H := model) m batches t = Ok (l, m') ->
  embedding m' = embedding m /\ frozen m'.
Proof.
  revert m t; induction batches as [|[x y] batches IH]; intros m t Hf Hrun.
  - injection Hrun as _ <-. split; [reflexivity|exact Hf].
  - cbn [run_batches] in Hrun.
    destruct (step (H := model) m x y) as [[l1 m1]|] eqn:Hstep;
      [|discriminate].
    cbn [mbind result_bind] in Hrun.
    destruct (step_embedding _ _ _ _ _ Hf Hstep) as [E1 Hf1].
    destruct (IH _ _ Hf1 Hrun) as [E2 Hf2].
    split; [congruence|exact Hf2].
Qed.

(** C6.  From a constructed classifier, after any batches already
    trained on, a training step returns a model whose embedding table is
    the pretrained weight matrix, row for row, the row at the padding
    index (the last one) included: the table does not require a gradient,
    is given none, and the optimizer skips it. *)
Theorem embedding_unchanged_by_step (weights : matrix)
  (classes hidden : nat) (use_avg_arg : bool) (dev : Device.device)
  (tensorboard : bool)
  (m0 m m' : LSTM) (batches : list (inputs * targets)) (t l l' : R)
  (x : inputs) (y : targets) :
  init weights classes use_avg_arg hidden dev tensorboard = Ok m0 ->
  run_batches (H := model) m0 batches t = Ok (l, m) ->
  step (H := model) m x y = Ok (l', m') ->
  weight (embedding m') = weight (embedding m)
  /\ data (weight (embedding m')) = weights
  /\ padding_idx (embedding m') = length weights - 1
  /\ data (weight (embedding m')) !! padding_idx (embedding m')
     = last weights.
Proof.
  intros Hinit Hrun Hstep.
  destruct tensorboard; [discriminate Hinit|].
  assert (Hne : weights <> []).
  { intros ->. vm_compute in Hinit. discriminate. }
  destruct (LSTM_init_ok weights classes hidden use_avg_arg dev Hne)
    as (m00 & Hinit' & Hdata & Hrg & Hgrad & Hpad & _).
  rewrite Hinit in Hinit'. injection Hinit' as <-.
  assert (Hf0 : frozen m0) by (split; assumption).
  destruct (run_batches_embedding _ _ _ _ _ Hf0 Hrun) as [E1 Hf1].
  destruct (step_embedding _ _ _ _ _ Hf1 Hstep) as [E2 _].
  rewrite E2, E1, Hdata, Hpad. repeat split.
  rewrite last_lookup. f_equal. lia.
Qed.

(** *** The forward pass *)





Lemma softmax_row_length (row : list R) :
  length (softmax_row row) = length row.
Proof. unfold softmax_row. apply length_map. Qed.



Lemma last_step_nil {A : Type} : last_step ([] : list A) = Raise IndexError.
Proof. reflexivity. Qed.




End WithKernels.

(** *** Runs on the sample classifier *)

Example validation_sample :
  exists m, sample_init = Ok m
            /\ validation (H := sample_model) m [[0; 1]] [0] = Raise TypeError.
Proof. eexists. split; reflexivity. Qed.

Example save_model_sample :
  exists m, sample_init = Ok m
            /\ save_model (H := sample_model) m {[ [] := Directory ]}
                 (Str ["model.pt"]) = Raise AttributeError
            /\ LSTM_save m {[ [] := Directory ]} ["model.pt"]
               = Ok (<[ ["model.pt"] := File (Snapshot (LSTM_state_dict m)) ]>
                       {[ [] := Directory ]}).
Proof. eexists. split; [reflexivity|]. split; reflexivity. Qed.

Lemma use_avg_discarded_witness :
  exists m, LSTM_init sample_random sample_weights 2 false 2 Device.Cpu false
              = Ok m
            /\ LSTM_init sample_random sample_weights 2 true 2 Device.Cpu false
              = Ok m
            /\ use_avg m = true.
Proof.
  destruct (use_avg_discarded sample_cell sample_random sample_weights 2 2
              false true Device.Cpu false) as (Hsame & Htrue & _).
  eexists. split; [reflexivity|]. split.
  - rewrite <- Hsame. reflexivity.
  - apply Htrue. reflexivity.
Defined.


Lemma embedding_unchanged_by_step_witness :
  exists m0 m l m',
    sample_init = Ok m0
    /\ run_batches (H := sample_model) m0 [([[1]; [0; 1]], [1; 0])] 0%R
       = Ok (l, m)
    /\ step (H := sample_model) m [[0; 2]] [0] = Ok (0%R, m')
    /\ data (weight (embedding m')) = sample_weights.
Proof.
  do 4 eexists. split; [reflexivity|]. split; [reflexivity|].
  split; [reflexivity|].
  refine (proj1 (proj2
    (embedding_unchanged_by_step sample_cell sample_loss sample_gradient
       sample_rule sample_random sample_weights 2 2 false Device.Cpu false
       _ _ _ [([[1]; [0; 1]], [1; 0])] 0%R _ 0%R [[0; 2]] [0] _ _ _)));
    reflexivity.
Defined.

(** A path that exists without holding a snapshot is not skipped:
    [torch.load] raises. *)
Example load_model_directory :
  exists m, sample_init = Ok m
            /\ load_model (H := sample_model) m {[ ["models"] := Directory ]}
                 (Str ["models"]) = Raise IsADirectoryError.
Proof. eexists. split; [reflexivity|]. vm_compute. reflexivity. Qed.


End ClassifierFacts.

(** ** The epoch loop *)

Module TrainingFacts.
Import PyFacts Batching BatchingFacts Torch Base Samples.

(** Whatever the model, a call of [update] that returns has drawn one
    permutation. *)
Lemma update_draws {M : Type} `{ModelBaseClass M}
  (permutation_of : nat -> nat -> list nat) (g g' : rng) (self m' : M)
  (data : inputs) (tgt : targets) (batch_size epochs : nat) (l : R) :
  update permutation_of g self data tgt batch_size epochs = Ok (l, m', g') ->
  g' = {| draws := S (draws g) |}.
Proof.
  unfold update, create_batches, get_indices, np_random_permutation.
  destruct (chunk_indices _ _ _) as [chunks|]; [|discriminate].
  cbn [mbind result_bind].
  destruct (get_batches data chunks) as [bi|]; [|discriminate].
  cbn [mbind result_bind].
  destruct (get_batches tgt chunks) as [bt|]; [|discriminate].
  cbn [mbind result_bind].
  destruct (run_epochs _ _ _ _ _) as [[l1 m1]|]; [|discriminate].
  cbn [mbind result_bind]. intros [= _ _ <-]. reflexivity.
Qed.

(** The recorder's step appends the batch it is given. *)
Lemma recorder_run_batches (batches seen : recorder) (t : R) :
  exists l, run_batches (H := recorder_model) seen batches t
            = Ok (l, seen ++ batches).
Proof.
  revert seen t; induction batches as [|[x y] batches IH]; intros seen t.
  - exists t. simpl. rewrite app_nil_r. reflexivity.
  - destruct (IH (seen ++ [(x, y)]) (t + 0)%R) as [l Hl].
    exists l. cbn [run_batches]. unfold step. simpl.
    rewrite Hl, <- app_assoc. reflexivity.
Qed.

Lemma recorder_run_epochs (epochs : nat) (bi : list inputs)
  (bt : list targets) (seen : recorder) (t : R) :
  bi <> [] ->
  exists l, run_epochs (H := recorder_model) epochs seen bi bt t
            = Ok (l, seen ++ concat (replicate epochs (zip bi bt))).
Proof.
  intros Hne. revert seen t; induction epochs as [|epochs IH]; intros seen t.
  - exists t. simpl. rewrite app_nil_r. reflexivity.
  - cbn [run_epochs].
    destruct (recorder_run_batches (zip bi bt) seen 0%R) as [l1 ->].
    cbn [mbind result_bind].
    destruct (Nat.eqb_spec (length bi) 0) as [E|_].
    { destruct bi; [congruence|discriminate]. }
    destruct (IH (seen ++ zip bi bt) (l1 / INR (length bi))%R) as [l Hl].
    exists l. rewrite Hl. simpl. rewrite <- app_assoc. reflexivity.
Qed.

(** Indices below the length select rows without an error. *)
Lemma get_batches_ok {A : Type} (data : list A) (chunks : list (list nat)) :
  Forall (Forall (fun i => i < length data)) chunks ->
  exists b, get_batches data chunks = Ok b /\ length b = length chunks.
Proof.
  intros Hall. unfold get_batches.
  assert (Hone : forall c, Forall (fun i => i < length data) c ->
                           exists r, take_indices data c = Ok r).
  { induction 1 as [|i c Hi _ [r Hr]]; [eexists; reflexivity|].
    destruct (lookup_lt_is_Some_2 _ _ Hi) as [x Hx].
    exists (x :: r). unfold take_indices in *. cbn [traverse].
    rewrite (getitem_Some _ _ _ Hx), Hr. reflexivity. }
  induction Hall as [|c chunks Hc _ (b & Hb & Hlen)];
    [exists []; split; reflexivity|].
  destruct (Hone c Hc) as [r Hr]. exists (r :: b).
  cbn [traverse]. rewrite Hr, Hb. simpl. split; [reflexivity|lia].
Qed.

Lemma chunks_in_range (shuffled : list nat) (N B : nat) :
  Permutation shuffled (seq 0 N) -> 0 < B ->
  Forall (Forall (fun i => i < N))
         (full_chunks shuffled N B ++ rest_chunk shuffled N B).
Proof.
  intros Hperm HB.
  assert (Hlen : length shuffled = N).
  { rewrite (Permutation_length Hperm). apply length_seq. }
  assert (Hall : Forall (fun i => i < N) (concat
            (full_chunks shuffled N B ++ rest_chunk shuffled N B))).
  { rewrite chunks_concat by assumption. rewrite Hperm.
    apply Forall_forall. intros i Hi%elem_of_seq. lia. }
  apply Forall_forall. intros c Hc. apply Forall_forall. intros i Hi.
  rewrite Forall_forall in Hall. apply Hall.
  apply list_elem_of_In, in_concat. exists c.
  split; apply list_elem_of_In; assumption.
Qed.

Lemma chunks_nonempty (shuffled : list nat) (N B : nat) :
  0 < N -> 0 < B ->
  full_chunks shuffled N B ++ rest_chunk shuffled N B <> [].
Proof.
  intros HN HB Hnil. apply app_eq_nil in Hnil as [Hfull Hrest].
  apply (f_equal length) in Hfull. rewrite full_chunks_length in Hfull.
  unfold rest_chunk in Hrest.
  destruct (Nat.eqb_spec (N mod B) 0) as [Hmod|_]; [|discriminate].
  pose proof (Nat.div_mod_eq N B) as E. simpl in Hfull. nia.
Qed.

(** C1, as amended.  A call of [update] draws one permutation, before the
    first epoch, whatever the number of epochs; it cuts the dataset into
    batches along the chunks of that permutation, and the training steps
    of every epoch receive those same batches in the same order. *)
Theorem update_partitions_once
  (permutation_of : nat -> nat -> list nat) (g : rng)
  (data : inputs) (tgt : targets) (batch_size epochs : nat) :
  Permutation (permutation_of (draws g) (length data))
              (seq 0 (length data)) ->
  length tgt = length data ->
  1 <= batch_size -> 1 <= length data ->
  let N := length data in
  let shuffled := permutation_of (draws g) N in
  let chunks :=
    full_chunks shuffled N batch_size ++ rest_chunk shuffled N batch_size in
  (exists l bi bt,
      get_batches data chunks = Ok bi
      /\ get_batches tgt chunks = Ok bt
      /\ update (H := recorder_model) permutation_of g [] data tgt
           batch_size epochs
         = Ok (l, concat (replicate epochs (zip bi bt)),
               {| draws := S (draws g) |}))
  /\ (forall (M : Type) (inst : ModelBaseClass M) (self m' : M) l g',
        update (H := inst) permutation_of g self data tgt batch_size epochs
          = Ok (l, m', g') ->
        draws g' = S (draws g)).
Proof.
  intros Hperm Htgt HB HN N shuffled chunks. split.
  - pose proof (chunks_in_range shuffled N batch_size Hperm HB) as Hrange.
    destruct (get_batches_ok data chunks Hrange) as (bi & Hbi & Hlbi).
    destruct (get_batches_ok tgt chunks) as (bt & Hbt & _).
    { rewrite Htgt. exact Hrange. }
    assert (Hne : bi <> []).
    { intros ->. simpl in Hlbi. symmetry in Hlbi.
      apply length_zero_iff_nil in Hlbi.
      exact (chunks_nonempty shuffled N batch_size HN HB Hlbi). }
    destruct (recorder_run_epochs epochs bi bt [] 0%R Hne) as [l Hl].
    exists l, bi, bt. split; [exact Hbi|]. split; [exact Hbt|].
    unfold update, create_batches.
    assert (Hget : get_indices permutation_of g N batch_size
                   = Ok (chunks, {| draws := S (draws g) |})).
    { unfold get_indices, np_random_permutation. fold shuffled.
      rewrite chunk_indices_spec; [reflexivity| |exact HB].
      unfold shuffled, N. rewrite (Permutation_length Hperm).
      apply length_seq. }
    fold N. rewrite Hget. cbn [mbind result_bind].
    fold shuffled. fold chunks. rewrite Hbi. cbn [mbind result_bind].
    rewrite Hbt. cbn [mbind result_bind train recorder_model].
    rewrite Hl. reflexivity.
  - intros M inst self m' l g' Hupd.
    rewrite (update_draws _ _ _ _ _ _ _ _ _ _ Hupd). reflexivity.
Qed.

Lemma update_partitions_once_witness :
  exists l,
    update (H := recorder_model) alternating {| draws := 0 |} []
      [[10]; [20]; [30]] [0; 1; 0] 2 2
    = Ok (l, [([[10]; [20]], [0; 1]); ([[30]], [0]);
              ([[10]; [20]], [0; 1]); ([[30]], [0])],
          {| draws := 1 |}).
Proof.
  destruct (update_partitions_once alternating {| draws := 0 |}
              [[10]; [20]; [30]] [0; 1; 0] 2 2)
    as ((l & bi & bt & Hbi & Hbt & Hupd) & _).
  - reflexivity.
  - reflexivity.
  - lia.
  - simpl. lia.
  - exists l. injection Hbi as <-. injection Hbt as <-. exact Hupd.
Defined.

(** C1, as stated, asks for one batch-index generation per epoch.  With
    two epochs [update] draws once: the generator stands at one draw, not
    two, and the second epoch trains on the batches of the first, in the
    order of the first, although the second draw of this generator is the
    reverse order. *)
Lemma update_reuses_first_partition :
  (exists l,
      update (H := recorder_model) alternating {| draws := 0 |} []
        [[10]; [20]] [0; 1] 1 2
      = Ok (l, [([[10]], [0]); ([[20]], [1]);
                ([[10]], [0]); ([[20]], [1])],
            {| draws := 1 |}))
  /\ draws {| draws := 1 |} <> 0 + 2
  /\ chunk_indices (alternating 1 2) 2 1 = Ok [[1]; [0]].
Proof.
  split; [eexists; reflexivity|]. split; [simpl; lia|reflexivity].
Qed.

End TrainingFacts.

(** ** The weight matrix *)

Module WeightsFacts.
Import PyFacts Batching Torch Weights Samples.

#[local] Set Warnings "-clear-no-such-hyp".

Lemma split_cons (sep : Ascii.ascii) (s : string) :
  exists w ws, split sep s = w :: ws.
Proof.
  induction s as [|c s (w & ws & IH)]; simpl; [eauto|].
  destruct (Ascii.eqb c sep); [eauto|]. rewrite IH. eauto.
Qed.

Lemma split_first (sep : Ascii.ascii) (s : string) :
  getitem (split sep s) 0 = Ok (hd EmptyString (split sep s)).
Proof. destruct (split_cons sep s) as (w & ws & ->). reflexivity. Qed.


Section WithKernels.
Variable float_of_string : string -> result R.
Variable random_vector : nat -> nat -> list R.

Local Abbreviation parse_line :=
  (fun line => traverse float_of_string (tail (split " " line))).
Local Abbreviation read_line := (read_line float_of_string).
Local Abbreviation add_word := (add_word random_vector).




End WithKernels.



(** Without any line there is no first row to take the width from, and
    [get_weights] raises [IndexError]. *)
Example get_weights_empty_resource :
  get_weights sample_float sample_vector [] ["a"] true {| draws := 0 |}
  = Raise IndexError.
Proof. reflexivity. Qed.

End WeightsFacts.

(** ** Text cleaning, vocabulary and encoding *)

Module TextFacts.
Import PyFacts Text.

#[local] Set Warnings "-clear-no-such-hyp".

Lemma kept_not_space_letter (c : Ascii.ascii) :
  is_kept c = true -> Ascii.eqb c " " = false -> is_letter c = true.
Proof.
  unfold is_kept. intros H1 H2. rewrite H2, orb_false_r in H1. exact H1.
Qed.

Lemma lower_char_lower (c : Ascii.ascii) :
  is_letter c = true -> is_lower (lower_char c) = true.
Proof.
  destruct c as [[] [] [] [] [] [] [] []]; vm_compute; intros H;
    first [reflexivity | discriminate H].
Qed.

Lemma sub_alphabet_kept (in_run : bool) (text : string) :
  all_chars is_kept (sub_alphabet in_run text) = true.
Proof.
  revert in_run; induction text as [|c text IH]; intros in_run; simpl.
  - reflexivity.
  - destruct (is_kept c) eqn:Hc; simpl.
    + rewrite Hc, IH. reflexivity.
    + destruct in_run; simpl; [apply IH|]. rewrite IH. reflexivity.
Qed.

Lemma split_letters (s : string) :
  all_chars is_kept s = true ->
  Forall (fun w => all_chars is_letter w = true) (Weights.split " " s).
Proof.
  induction s as [|c s IH]; simpl; intros H.
  - repeat constructor.
  - apply andb_prop in H as [Hc Hs]. specialize (IH Hs).
    destruct (Ascii.eqb c " ") eqn:Hsp.
    + constructor; [reflexivity|exact IH].
    + destruct (Weights.split " " s) as [|w ws].
      * repeat constructor. simpl.
        rewrite (kept_not_space_letter c Hc Hsp). reflexivity.
      * inversion IH as [|? ? Hw Hws]; subst. constructor; [|exact Hws].
        simpl. rewrite (kept_not_space_letter c Hc Hsp). exact Hw.
Qed.

Lemma lower_letters (w : string) :
  all_chars is_letter w = true -> all_chars is_lower (lower w) = true.
Proof.
  induction w as [|c w IH]; simpl; [reflexivity|].
  intros [Hc Hw]%andb_prop. rewrite (lower_char_lower c Hc), (IH Hw).
  reflexivity.
Qed.

Lemma lower_nonempty (w : string) : nonempty (lower w) = nonempty w.
Proof. destruct w; reflexivity. Qed.

(** Every word [filter_text] returns is non-empty and made of the
    lowercase letters [a] to [z] only, whatever the text. *)
Theorem filter_text_words (text : string) :
  Forall (fun w => nonempty w = true /\ all_chars is_lower w = true)
         (filter_text text).
Proof.
  unfold filter_text.
  set (fields := Weights.split " " (sub_alphabet false _)).
  assert (Hfields : Forall (fun w => all_chars is_letter w = true) fields).
  { apply split_letters, sub_alphabet_kept. }
  clearbody fields. induction Hfields as [|w ws Hw _ IH]; simpl.
  - constructor.
  - destruct (nonempty w) eqn:Hne; [|exact IH].
    simpl. constructor; [|exact IH]. split.
    + rewrite lower_nonempty. exact Hne.
    + apply lower_letters, Hw.
Qed.





(** Of a longer run of word characters after [@], only the first fifteen
    go: what is left of the name stays in the text as a word. *)
Example filter_text_long_handle :
  filter_text "@abcdefghijklmnopqrst x" = ["pqrst"; "x"].
Proof. reflexivity. Qed.

(** An [@] that no word character follows is no handle. *)
Example filter_text_lone_at :
  filter_text "a@ b @@c  d--e" = ["a"; "b"; "d"; "e"].
Proof. reflexivity. Qed.

(** *** The vocabulary *)

Lemma get_vocab_document (document : list string) (vocab : gset string)
  (w : string) :
  w ∈ foldl (fun vocab word => {[word]} ∪ vocab) vocab document
  <-> w ∈ vocab \/ w ∈ document.
Proof.
  revert vocab; induction document as [|x document IH]; intros vocab; simpl.
  - rewrite elem_of_nil. tauto.
  - rewrite IH, elem_of_union, elem_of_singleton, elem_of_cons. tauto.
Qed.

Lemma get_vocab_from (documents : list (list string)) (vocab : gset string)
  (w : string) :
  w ∈ foldl (fun vocab document =>
               foldl (fun vocab word => {[word]} ∪ vocab) vocab document)
            vocab documents
  <-> w ∈ vocab \/ exists document, document ∈ documents /\ w ∈ document.
Proof.
  revert vocab; induction documents as [|d documents IH]; intros vocab; simpl.
  - split; [tauto|]. intros [H|(d & Hd & _)]; [exact H|].
    apply elem_of_nil in Hd as [].
  - rewrite IH, get_vocab_document. split.
    + intros [[H|H]|(d' & Hd' & Hw)]; [tauto| |].
      * right. exists d. split; [apply elem_of_cons; tauto|exact H].
      * right. exists d'. split; [apply elem_of_cons; tauto|exact Hw].
    + intros [H|(d' & Hd' & Hw)]; [tauto|].
      apply elem_of_cons in Hd' as [->|Hd']; [tauto|].
      right. exists d'. tauto.
Qed.

(** The vocabulary holds the words that occur in some document, and no
    other. *)
Theorem get_vocab_spec (documents : list (list string)) (w : string) :
  w ∈ get_vocab documents
  <-> exists document, document ∈ documents /\ w ∈ document.
Proof.
  unfold get_vocab. rewrite get_vocab_from. split; [|tauto].
  intros [H|H]; [|exact H]. apply elem_of_empty in H as [].
Qed.

(** *** Encoding *)

Lemma encode_document_ok (vocab : gmap string nat) (document : list string) :
  Forall (fun w => w ∈ dom vocab) document ->
  encode_document vocab (map Word document)
  = (indices_of vocab document, None).
Proof.
  induction 1 as [|w document Hw _ IH]; simpl; [reflexivity|].
  apply elem_of_dom in Hw as [n Hn]. rewrite Hn, IH. reflexivity.
Qed.

Lemma encode_document_stop (vocab : gmap string nat)
  (before after : list string) (w : string) :
  Forall (fun w => w ∈ dom vocab) before -> w ∉ dom vocab ->
  encode_document vocab (map Word (before ++ w :: after))
  = (indices_of vocab before ++ Word w :: map Word after, Some KeyError).
Proof.
  intros Hbefore Hw. induction Hbefore as [|x before Hx _ IH]; simpl.
  - apply not_elem_of_dom in Hw. rewrite Hw. reflexivity.
  - apply elem_of_dom in Hx as [n Hn]. rewrite Hn, IH. reflexivity.
Qed.

(** When the map has every word of every document, [encode_documents]
    does not raise and has put in the place of each word its index. *)
Theorem encode_documents_ok (vocab : gmap string nat)
  (documents : list (list string)) :
  Forall (Forall (fun w => w ∈ dom vocab)) documents ->
  encode_documents (map (map Word) documents) vocab
  = (map (indices_of vocab) documents, None)
  /\ Forall2 (Forall2 (fun w c => exists n, vocab !! w = Some n
                                            /\ c = Index n))
       documents (map (indices_of vocab) documents).
Proof.
  intros Hall. split.
  - induction Hall as [|d documents Hd _ IH]; simpl; [reflexivity|].
    rewrite (encode_document_ok vocab d Hd), IH. reflexivity.
  - induction Hall as [|d documents Hd _ IH]; simpl; constructor;
      [|exact IH].
    induction Hd as [|w d Hw _ IHd]; simpl; constructor; [|exact IHd].
    apply elem_of_dom in Hw as [n Hn]. exists n. rewrite Hn. split; reflexivity.
Qed.

Lemma encode_documents_ok_witness :
  encode_documents [[Word "good"; Word "bad"]; []; [Word "good"]]
    (<["good" := 0]> (<["bad" := 1]> ∅))
  = ([[Index 0; Index 1]; []; [Index 0]], None).
Proof.
  destruct (encode_documents_ok (<["good" := 0]> (<["bad" := 1]> ∅))
              [["good"; "bad"]; []; ["good"]]) as [H _].
  - repeat constructor; apply elem_of_dom; eexists; vm_compute; reflexivity.
  - exact H.
Defined.

(** At the first word the map lacks, [encode_documents] raises
    [KeyError] and leaves the documents half encoded: indices up to that
    word, words from it on. *)
Theorem encode_documents_missing_word (vocab : gmap string nat)
  (done_ todo : list (list string)) (before after : list string)
  (w : string) :
  Forall (Forall (fun w => w ∈ dom vocab)) done_ ->
  Forall (fun w => w ∈ dom vocab) before ->
  w ∉ dom vocab ->
  encode_documents
    (map (map Word) (done_ ++ (before ++ w :: after) :: todo)) vocab
  = (map (indices_of vocab) done_
       ++ (indices_of vocab before ++ Word w :: map Word after)
       :: map (map Word) todo,
     Some KeyError).
Proof.
  intros Hdone Hbefore Hw.
  induction Hdone as [|d done_ Hd _ IH].
  - cbn [app map encode_documents].
    rewrite (encode_document_stop vocab before after w Hbefore Hw).
    reflexivity.
  - cbn [app map encode_documents] in *.
    rewrite (encode_document_ok vocab d Hd), IH. reflexivity.
Qed.

Lemma encode_documents_missing_word_witness :
  encode_documents
    [[Word "good"]; [Word "bad"; Word "ugly"; Word "good"]; [Word "bad"]]
    (<["good" := 0]> (<["bad" := 1]> ∅))
  = ([[Index 0]; [Index 1; Word "ugly"; Word "good"]; [Word "bad"]],
     Some KeyError).
Proof.
  pose proof (encode_documents_missing_word
                (<["good" := 0]> (<["bad" := 1]> ∅))
                [["good"]] [["bad"]] ["bad"] ["good"] "ugly") as H.
  refine (H _ _ _).
  - repeat constructor; apply elem_of_dom; eexists; vm_compute; reflexivity.
  - repeat constructor; apply elem_of_dom; eexists; vm_compute; reflexivity.
  - apply not_elem_of_dom. vm_compute. reflexivity.
Defined.

(** Documents that hold indices cannot be encoded again: unless they are
    all empty, [encode_documents] raises [KeyError] at the first cell and
    changes nothing. *)
Theorem encode_documents_twice (vocab : gmap string nat)
  (documents : list (list nat)) :
  Exists (fun d => d <> []) documents ->
  encode_documents (map (map Index) documents) vocab
  = (map (map Index) documents, Some KeyError).
Proof.
  induction documents as [|d documents IH]; intros Hex.
  - inversion Hex.
  - destruct d as [|n d]; simpl.
    + rewrite IH; [reflexivity|].
      inversion Hex as [? ? H|? ? H]; subst; [congruence|exact H].
    + reflexivity.
Qed.

Lemma encode_documents_twice_witness :
  encode_documents [[]; [Index 0; Index 1]] (<["good" := 0]> ∅)
  = ([[]; [Index 0; Index 1]], Some KeyError).
Proof.
  apply (encode_documents_twice (<["good" := 0]> ∅) [[]; [0; 1]]).
  apply Exists_cons_tl, Exists_cons_hd. discriminate.
Defined.

End TextFacts.

(** ** Batches and epochs: edge cases and alignment *)

Module EpochFacts.
Import PyFacts Batching BatchingFacts Torch Base Samples.

Lemma getitem_Ok_inv {A : Type} (a : list A) (i : nat) (x : A) :
  getitem a i = Ok x -> a !! i = Some x.
Proof. unfold getitem. destruct (a !! i); congruence. Qed.

Lemma getitem_Raise_inv {A : Type} (a : list A) (i : nat) (e : exn) :
  getitem a i = Raise e -> e = IndexError /\ length a <= i.
Proof.
  unfold getitem. destruct (a !! i) eqn:Hi; [discriminate|].
  intros [= <-]. split; [reflexivity|]. apply lookup_ge_None, Hi.
Qed.

(** [take_indices] returns the entries at the positions, or raises
    [IndexError] at the first position outside the list. *)
Lemma take_indices_Ok {A : Type} (a : list A) (idx : list nat) (r : list A) :
  take_indices a idx = Ok r -> Forall2 (fun i x => a !! i = Some x) idx r.
Proof.
  unfold take_indices. revert r; induction idx as [|i idx IH]; intros r H.
  - injection H as <-. constructor.
  - cbn [traverse] in H.
    destruct (getitem a i) as [x|] eqn:Hx; [|discriminate].
    cbn [mbind result_bind] in H.
    destruct (traverse (getitem a) idx) as [r'|]; [|discriminate].
    cbn [mbind result_bind] in H. injection H as <-.
    constructor; [apply getitem_Ok_inv, Hx|]. apply IH. reflexivity.
Qed.

Lemma take_indices_Raise {A : Type} (a : list A) (idx : list nat) (e : exn) :
  take_indices a idx = Raise e ->
  e = IndexError /\ Exists (fun i => length a <= i) idx.
Proof.
  unfold take_indices. induction idx as [|i idx IH]; intros H.
  - discriminate.
  - cbn [traverse] in H.
    destruct (getitem a i) as [x|e'] eqn:Hx.
    + cbn [mbind result_bind] in H.
      destruct (traverse (getitem a) idx) as [r'|e''] eqn:Hr;
        [discriminate|].
      cbn [mbind result_bind] in H. injection H as <-.
      destruct (IH eq_refl) as [-> Hex].
      split; [reflexivity|]. apply Exists_cons_tl, Hex.
    + cbn [mbind result_bind] in H. injection H as <-.
      destruct (getitem_Raise_inv a i e' Hx) as [-> Hi].
      split; [reflexivity|]. apply Exists_cons_hd, Hi.
Qed.

Lemma get_batches_Ok {A : Type} (a : list A) (chunks : list (list nat))
  (b : list (list A)) :
  get_batches a chunks = Ok b ->
  Forall2 (Forall2 (fun i x => a !! i = Some x)) chunks b.
Proof.
  unfold get_batches. revert b; induction chunks as [|c chunks IH];
    intros b H.
  - injection H as <-. constructor.
  - cbn [traverse] in H.
    destruct (take_indices a c) as [r|] eqn:Hr; [|discriminate].
    cbn [mbind result_bind] in H.
    destruct (traverse (take_indices a) chunks) as [b'|]; [|discriminate].
    cbn [mbind result_bind] in H. injection H as <-. constructor; [apply take_indices_Ok, Hr|].
    apply IH. reflexivity.
Qed.

Lemma get_batches_Raise {A : Type} (a : list A) (chunks : list (list nat))
  (e : exn) :
  get_batches a chunks = Raise e ->
  e = IndexError /\ Exists (fun i => length a <= i) (concat chunks).
Proof.
  unfold get_batches. induction chunks as [|c chunks IH]; intros H.
  - discriminate.
  - cbn [traverse] in H.
    destruct (take_indices a c) as [r|e'] eqn:Hr.
    + cbn [mbind result_bind] in H.
      destruct (traverse (take_indices a) chunks) as [b'|e''];
        [discriminate|].
      cbn [mbind result_bind] in H. injection H as <-. destruct (IH eq_refl) as [-> Hex].
      split; [reflexivity|]. simpl. apply Exists_app. right. exact Hex.
    + injection H as <-. destruct (take_indices_Raise a c e' Hr) as [-> Hex].
      split; [reflexivity|]. simpl. apply Exists_app. left. exact Hex.
Qed.

Lemma Forall2_concat {A B : Type} (R : A -> B -> Prop)
  (ls : list (list A)) (ks : list (list B)) :
  Forall2 (Forall2 R) ls ks -> Forall2 R (concat ls) (concat ks).
Proof.
  induction 1 as [|l k ls ks Hlk _ IH]; simpl; [constructor|].
  apply Forall2_app; assumption.
Qed.

Lemma lookups_of_seq {A : Type} (a k : list A) (n : nat) :
  Forall2 (fun i x => a !! i = Some x) (seq 0 n) k -> k = take n a.
Proof.
  intros H. apply Forall2_same_length_lookup in H as [Hlen H].
  rewrite length_seq in Hlen. apply list_eq. intros i.
  destruct (decide (i < n)) as [Hi|Hi].
  - rewrite lookup_take_lt by exact Hi.
    destruct (lookup_lt_is_Some_2 k i ltac:(lia)) as [x Hx].
    rewrite Hx. symmetry. apply (H i i x); [|exact Hx].
    apply lookup_seq. lia.
  - rewrite lookup_take_ge by lia. apply lookup_ge_None. lia.
Qed.

(** The number of chunks is the ceiling of [N / B]. *)
Lemma chunks_count (shuffled : list nat) (N B : nat) :
  0 < B ->
  length (full_chunks shuffled N B ++ rest_chunk shuffled N B)
  = (N + (B - 1)) / B.
Proof.
  intros HB. rewrite length_app, full_chunks_length. unfold rest_chunk.
  pose proof (Nat.div_mod_eq N B) as E.
  pose proof (Nat.mod_upper_bound N B ltac:(lia)) as Hr.
  replace (N + (B - 1)) with (N / B * B + (N mod B + (B - 1))) by lia.
  rewrite Nat.div_add_l by lia.
  destruct (Nat.eqb_spec (N mod B) 0) as [H0|H0]; cbn [length].
  - rewrite H0. rewrite (Nat.div_small (0 + (B - 1))) by lia. reflexivity.
  - f_equal. apply (Nat.div_unique _ _ 1 (N mod B - 1)); lia.
Qed.

(** For every batch size of at least one, larger than the dataset or
    not, and for the empty dataset too, [get_indices] returns: the
    chunks, in order, make up the permutation; there are as many as the
    ceiling of [N / B]; none is empty and none is longer than [B]. *)
Theorem get_indices_total (permutation_of : nat -> nat -> list nat)
  (g : rng) (N B : nat) :
  Permutation (permutation_of (draws g) N) (seq 0 N) ->
  1 <= B ->
  let shuffled := permutation_of (draws g) N in
  let chunks := full_chunks shuffled N B ++ rest_chunk shuffled N B in
  get_indices permutation_of g N B = Ok (chunks, {| draws := S (draws g) |})
  /\ concat chunks = shuffled
  /\ length chunks = (N + (B - 1)) / B
  /\ Forall (fun c => 1 <= length c <= B) chunks.
Proof.
  intros Hperm HB shuffled chunks.
  assert (Hlen : length shuffled = N).
  { unfold shuffled. rewrite (Permutation_length Hperm). apply length_seq. }
  split; [|split; [|split]].
  - unfold get_indices, np_random_permutation. fold shuffled.
    rewrite chunk_indices_spec by (exact Hlen || lia). reflexivity.
  - apply chunks_concat; [exact Hlen|lia].
  - apply chunks_count. lia.
  - apply Forall_app. split.
    + eapply Forall_impl; [apply full_chunks_sizes; [exact Hlen|lia]|].
      simpl. intros c ->. lia.
    + pose proof (rest_chunk_sizes _ N B Hlen) as Hrest.
      unfold rest_chunk in *.
      destruct (Nat.eqb_spec (N mod B) 0) as [H0|H0]; [constructor|].
      eapply Forall_impl; [exact Hrest|]. simpl. intros c ->.
      pose proof (Nat.mod_upper_bound N B ltac:(lia)). lia.
Qed.

Lemma get_indices_total_witness :
  get_indices alternating {| draws := 1 |} 2 5
    = Ok ([[1; 0]], {| draws := 2 |})
  /\ get_indices alternating {| draws := 0 |} 0 4
    = Ok ([], {| draws := 1 |}).
Proof.
  split.
  - refine (proj1 (get_indices_total alternating {| draws := 1 |} 2 5 _ _)).
    + symmetry. apply (Permutation_rev (seq 0 2)).
    + lia.
  - refine (proj1 (get_indices_total alternating {| draws := 0 |} 0 4 _ _)).
    + reflexivity.
    + lia.
Defined.

Lemma Forall2_same_lengths {A B C : Type} (R : C -> A -> Prop)
  (R' : C -> B -> Prop) (cs : list (list C)) (bi : list (list A))
  (bt : list (list B)) :
  Forall2 (Forall2 R) cs bi -> Forall2 (Forall2 R') cs bt ->
  Forall2 (fun b t => length b = length t) bi bt.
Proof.
  intros H; revert bt; induction H as [|c b cs bi Hcb _ IH]; intros bt H'.
  - inversion H'. constructor.
  - inversion H' as [|? t ? bt' Hct Hrest]; subst. constructor.
    + rewrite <- (Forall2_length _ _ _ Hcb). apply (Forall2_length _ _ _ Hct).
    + apply IH, Hrest.
Qed.

Lemma Forall2_zip_both {A B C : Type} (R : C -> A -> Prop)
  (R' : C -> B -> Prop) (l : list C) (k1 : list A) (k2 : list B) :
  Forall2 R l k1 -> Forall2 R' l k2 ->
  Forall2 (fun i p => R i (fst p) /\ R' i (snd p)) l (zip k1 k2).
Proof.
  intros H; revert k2; induction H as [|c x l k1 Hcx _ IH]; intros k2 H'.
  - inversion H'. constructor.
  - inversion H' as [|? y ? k2' Hcy Hrest]; subst. simpl.
    constructor; [split; assumption|]. apply IH, Hrest.
Qed.

(** [create_batches] cuts the inputs and the targets along the same
    chunks: batch by batch they have the same length, the batches of
    inputs hold every input once, and put side by side the two hold
    every input with its own target. *)
Theorem create_batches_aligned {A B : Type}
  (permutation_of : nat -> nat -> list nat) (g : rng)
  (data : list A) (tgt : list B) (batch_size : nat) :
  Permutation (permutation_of (draws g) (length data))
              (seq 0 (length data)) ->
  length data <= length tgt ->
  1 <= batch_size ->
  exists bi bt,
    create_batches permutation_of g data tgt batch_size
    = Ok (bi, bt, {| draws := S (draws g) |})
    /\ Forall2 (fun b t => length b = length t) bi bt
    /\ Permutation (concat bi) data
    /\ Permutation (zip (concat bi) (concat bt)) (zip data tgt).
Proof.
  intros Hperm Htgt HB.
  set (N := length data) in *.
  set (shuffled := permutation_of (draws g) N) in *.
  set (chunks := full_chunks shuffled N batch_size
                 ++ rest_chunk shuffled N batch_size).
  assert (Hlen : length shuffled = N).
  { rewrite (Permutation_length Hperm). apply length_seq. }
  pose proof (TrainingFacts.chunks_in_range shuffled N batch_size Hperm HB)
    as Hrange.
  destruct (TrainingFacts.get_batches_ok data chunks Hrange)
    as (bi & Hbi & _).
  destruct (TrainingFacts.get_batches_ok tgt chunks) as (bt & Hbt & _).
  { eapply Forall_impl; [exact Hrange|]. intros c Hc.
    eapply Forall_impl; [exact Hc|]. simpl. lia. }
  pose proof (get_batches_Ok _ _ _ Hbi) as Hbi2.
  pose proof (get_batches_Ok _ _ _ Hbt) as Hbt2.
  assert (Hcat : concat chunks = shuffled).
  { apply chunks_concat; [exact Hlen|lia]. }
  pose proof (Forall2_concat _ _ _ Hbi2) as Hci.
  pose proof (Forall2_concat _ _ _ Hbt2) as Hct.
  rewrite Hcat in Hci, Hct.
  exists bi, bt. split; [|split; [|split]].
  - unfold create_batches, get_indices, np_random_permutation.
    fold N. fold shuffled.
    rewrite chunk_indices_spec by (exact Hlen || lia).
    cbn [mbind result_bind]. fold chunks. rewrite Hbi.
    cbn [mbind result_bind]. rewrite Hbt. reflexivity.
  - exact (Forall2_same_lengths _ _ _ _ _ Hbi2 Hbt2).
  - destruct (Permutation_Forall2 Hperm Hci) as (k & Hk & Hseq).
    rewrite Hk, (lookups_of_seq _ _ _ Hseq). unfold N.
    rewrite firstn_all. reflexivity.
  - pose proof (Forall2_zip_both _ _ _ _ _ Hci Hct) as Hz.
    destruct (Permutation_Forall2 Hperm Hz) as (k & Hk & Hseq).
    rewrite Hk. rewrite (lookups_of_seq (zip data tgt) k N).
    + rewrite take_ge by (rewrite length_zip_with; lia). reflexivity.
    + eapply Forall2_impl; [exact Hseq|]. intros i [x y] [Hx Hy].
      simpl in *. apply lookup_zip_with_Some. eauto.
Qed.

Lemma create_batches_aligned_witness :
  create_batches alternating {| draws := 1 |}
    ["a"; "b"; "c"] [10; 20; 30; 40] 2
  = Ok ([["c"; "b"]; ["a"]], [[30; 20]; [10]], {| draws := 2 |}).
Proof.
  destruct (create_batches_aligned alternating {| draws := 1 |}
              ["a"; "b"; "c"] [10; 20; 30; 40] 2)
    as (bi & bt & Hrun & _).
  - symmetry. apply (Permutation_rev (seq 0 3)).
  - simpl. lia.
  - lia.
  - rewrite Hrun. vm_compute in Hrun. injection Hrun as <- <-. reflexivity.
Defined.

(** With fewer targets than inputs, [create_batches] raises
    [IndexError]: some batch asks for a target that is not there. *)
Theorem create_batches_short_targets {A B : Type}
  (permutation_of : nat -> nat -> list nat) (g : rng)
  (data : list A) (tgt : list B) (batch_size : nat) :
  Permutation (permutation_of (draws g) (length data))
              (seq 0 (length data)) ->
  length tgt < length data ->
  1 <= batch_size ->
  create_batches permutation_of g data tgt batch_size = Raise IndexError.
Proof.
  intros Hperm Htgt HB.
  set (N := length data) in *.
  set (shuffled := permutation_of (draws g) N) in *.
  set (chunks := full_chunks shuffled N batch_size
                 ++ rest_chunk shuffled N batch_size).
  assert (Hlen : length shuffled = N).
  { rewrite (Permutation_length Hperm). apply length_seq. }
  pose proof (TrainingFacts.chunks_in_range shuffled N batch_size Hperm HB)
    as Hrange.
  destruct (TrainingFacts.get_batches_ok data chunks Hrange)
    as (bi & Hbi & _).
  assert (Hcat : concat chunks = shuffled).
  { apply chunks_concat; [exact Hlen|lia]. }
  unfold create_batches, get_indices, np_random_permutation.
  fold N. fold shuffled.
  rewrite chunk_indices_spec by (exact Hlen || lia).
  cbn [mbind result_bind]. fold chunks. rewrite Hbi.
  cbn [mbind result_bind].
  destruct (get_batches tgt chunks) as [bt|e] eqn:Hbt.
  - exfalso. pose proof (Forall2_concat _ _ _ (get_batches_Ok _ _ _ Hbt))
      as Hct.
    rewrite Hcat in Hct.
    assert (Hin : length tgt ∈ shuffled).
    { rewrite Hperm. apply elem_of_seq. lia. }
    apply list_elem_of_lookup in Hin as [j Hj].
    destruct (Forall2_lookup_l _ _ _ _ _ Hct Hj) as (y & _ & Hy).
    apply lookup_lt_Some in Hy. lia.
  - destruct (get_batches_Raise _ _ _ Hbt) as [-> _]. reflexivity.
Qed.

Lemma create_batches_short_targets_witness :
  create_batches alternating {| draws := 0 |} ["a"; "b"; "c"] [10; 20] 2
  = Raise IndexError.
Proof.
  apply create_batches_short_targets.
  - reflexivity.
  - simpl. lia.
  - lia.
Defined.

(** *** The epoch loop *)

(** On an empty dataset, [update] with at least one epoch raises
    [ZeroDivisionError], whatever the model and the batch size: with a
    batch size of zero in [get_indices], otherwise when the mean over no
    batch is taken. *)
Theorem update_empty_dataset {M : Type} `{ModelBaseClass M}
  (permutation_of : nat -> nat -> list nat) (g : rng) (self : M)
  (tgt : targets) (batch_size epochs : nat) :
  update permutation_of g self [] tgt batch_size (S epochs)
  = Raise ZeroDivisionError.
Proof.
  unfold update, create_batches, get_indices, np_random_permutation,
    chunk_indices, mod_, range3.
  destruct (Nat.eqb_spec batch_size 0) as [->|Hne]; [reflexivity|].
  cbn [length mbind result_bind Nat.modulo Nat.sub].
  rewrite Nat.Div0.mod_0_l. cbn [Nat.sub Nat.add].
  rewrite (Nat.div_small (batch_size - 1)) by lia. reflexivity.
Qed.

(** With no epoch to run, [update] still draws one permutation and
    switches the model to training mode, runs no step and returns [0]. *)
Theorem update_zero_epochs {M : Type} `{ModelBaseClass M}
  (permutation_of : nat -> nat -> list nat) (g : rng) (self : M)
  (data : inputs) (tgt : targets) (batch_size : nat) :
  Permutation (permutation_of (draws g) (length data))
              (seq 0 (length data)) ->
  length data <= length tgt ->
  1 <= batch_size ->
  update permutation_of g self data tgt batch_size 0
  = Ok (0%R, train self, {| draws := S (draws g) |}).
Proof.
  intros Hperm Htgt HB.
  destruct (create_batches_aligned permutation_of g data tgt batch_size
              Hperm Htgt HB) as (bi & bt & Hrun & _).
  unfold update. rewrite Hrun. reflexivity.
Qed.

Lemma update_zero_epochs_witness :
  update (H := recorder_model) alternating {| draws := 0 |} []
    [[10]; [20]] [0; 1] 1 0
  = Ok (0%R, [], {| draws := 1 |}).
Proof.
  apply (update_zero_epochs (H := recorder_model)).
  - reflexivity.
  - simpl. lia.
  - lia.
Defined.

Lemma run_epochs_unfold {M : Type} `{ModelBaseClass M} (epochs : nat)
  (self : M) (data : list inputs) (tgts : list targets) (l0 : R) :
  run_epochs (S epochs) self data tgts l0
  = ('(total_loss, self') ← run_batches self (zip data tgts) 0%R;
     if (length data =? 0)%nat then Raise ZeroDivisionError
     else run_epochs epochs self' data tgts
            (total_loss / INR (length data))%R).
Proof. reflexivity. Qed.

(** One more epoch is one more pass over the same batches, after the
    others. *)
Lemma run_epochs_S {M : Type} `{ModelBaseClass M} (epochs : nat) (self : M)
  (data : list inputs) (tgts : list targets) (l0 : R) :
  run_epochs (S epochs) self data tgts l0
  = ('(_, m1) ← run_epochs epochs self data tgts l0;
     '(total, m) ← run_batches m1 (zip data tgts) 0%R;
     if (length data =? 0)%nat then Raise ZeroDivisionError
     else Ok ((total / INR (length data))%R, m)).
Proof.
  revert self l0; induction epochs as [|epochs IH]; intros self l0.
  - cbn [run_epochs mbind result_bind].
    destruct (run_batches self (zip data tgts) 0%R) as [[t m]|];
      [|reflexivity].
    cbn [mbind result_bind]. destruct (length data =? 0)%nat; reflexivity.
  - rewrite (run_epochs_unfold (S epochs) self data tgts l0).
    rewrite (run_epochs_unfold epochs self data tgts l0).
    destruct (run_batches self (zip data tgts) 0%R) as [[t m]|];
      [|reflexivity].
    cbn [mbind result_bind].
    destruct (length data =? 0)%nat; [reflexivity|]. apply IH.
Qed.

(** What [update] returns after at least one epoch is the mean, over the
    batches, of the losses of the last epoch alone; the model is the one
    the last epoch leaves. *)
Theorem update_returns_last_epoch_mean {M : Type} `{ModelBaseClass M}
  (permutation_of : nat -> nat -> list nat) (g g' : rng) (self m : M)
  (data : inputs) (tgt : targets) (batch_size epochs : nat) (l : R) :
  update permutation_of g self data tgt batch_size (S epochs)
  = Ok (l, m, g') ->
  exists bi bt l1 m1 total,
    create_batches permutation_of g data tgt batch_size = Ok (bi, bt, g')
    /\ run_epochs epochs (train self) bi bt 0%R = Ok (l1, m1)
    /\ run_batches m1 (zip bi bt) 0%R = Ok (total, m)
    /\ l = (total / INR (length bi))%R.
Proof.
  unfold update.
  destruct (create_batches permutation_of g data tgt batch_size)
    as [[[bi bt] g1]|] eqn:Hcb; [|discriminate].
  cbn [mbind result_bind]. rewrite run_epochs_S.
  destruct (run_epochs epochs (train self) bi bt 0%R) as [[l1 m1]|] eqn:Hep;
    [|discriminate].
  cbn [mbind result_bind].
  destruct (run_batches m1 (zip bi bt) 0%R) as [[total m']|] eqn:Hrb;
    [|discriminate].
  cbn [mbind result_bind].
  destruct (length bi =? 0)%nat; [discriminate|].
  cbn [mbind result_bind]. intros [= <- <- <-].
  exists bi, bt, l1, m1, total. repeat split; assumption || reflexivity.
Qed.

Lemma update_returns_last_epoch_mean_witness :
  exists l total,
    update (H := recorder_model) alternating {| draws := 0 |} []
      [[10]; [20]] [0; 1] 1 2
    = Ok (l, [([[10]], [0]); ([[20]], [1]); ([[10]], [0]); ([[20]], [1])],
          {| draws := 1 |})
    /\ run_batches (H := recorder_model) [([[10]], [0]); ([[20]], [1])]
         [([[10]], [0]); ([[20]], [1])] 0%R
       = Ok (total,
             [([[10]], [0]); ([[20]], [1]); ([[10]], [0]); ([[20]], [1])])
    /\ l = (total / INR 2)%R.
Proof.
  eexists. eexists. split; [reflexivity|].
  destruct (update_returns_last_epoch_mean (H := recorder_model)
              alternating {| draws := 0 |} {| draws := 1 |} [] _
              [[10]; [20]] [0; 1] 1 1 _ eq_refl)
    as (bi & bt & l1 & m1 & total & Hcb & Hep & Hrb & Hl).
  vm_compute in Hcb. injection Hcb as <- <-.
  vm_compute in Hep. injection Hep as _ <-.
  split; [|reflexivity]. reflexivity.
Defined.



End EpochFacts.

(** ** The classifier: training, errors of the forward pass, checkpoints *)

Module ModelFacts.
Import PyFacts Batching Torch Base Classifier Checkpoints Samples.
Import ClassifierFacts.


Section WithKernels.
Variable gru_cell : GRU -> list R -> list R -> list R.
Variable cross_entropy : evaluator.
Variable gradient : LSTM -> inputs -> targets -> string -> matrix.
Variable adam_rule : adam_entry -> matrix -> matrix -> matrix * adam_entry.
Variable random_matrix : string -> nat -> nat -> matrix.

Local Abbreviation model :=
  (LSTM_model gru_cell cross_entropy gradient adam_rule).

(** *** Training *)

Lemma step_training (m m' : LSTM) (x : inputs) (y : targets) (l : R) :
  step (H := model) m x y = Ok (l, m') ->
  training m' = training m /\ hidden_size m' = hidden_size m
  /\ use_avg m' = use_avg m /\ device m' = device m.
Proof.
  rewrite step_unfold.
  destruct (LSTM_forward _ _ _) as [pred|]; [|discriminate].
  cbn [mbind result_bind].
  destruct (cross_entropy pred y) as [l0|]; [|discriminate].
  cbn [mbind result_bind]. intros [= _ <-]. repeat split.
Qed.

Lemma run_batches_training (batches : list (inputs * targets))
  (m m' : LSTM) (t l : R) :
  run_batches (H := model) m batches t = Ok (l, m') ->
  training m' = training m.
Proof.
  revert m t; induction batches as [|[x y] batches IH]; intros m t Hrun.
  - injection Hrun as _ <-. reflexivity.
  - cbn [run_batches] in Hrun.
    destruct (step (H := model) m x y) as [[l1 m1]|] eqn:Hstep;
      [|discriminate].
    cbn [mbind result_bind] in Hrun.
    rewrite (IH _ _ Hrun). apply (step_training _ _ _ _ _ Hstep).
Qed.

Lemma run_epochs_embedding (epochs : nat) (bi : list inputs)
  (bt : list targets) (m m' : LSTM) (t l : R) :
  frozen m -> run_epochs (H := model) epochs m bi bt t = Ok (l, m') ->
  embedding m' = embedding m /\ frozen m' /\ training m' = training m.
Proof.
  revert m t; induction epochs as [|epochs IH]; intros m t Hf Hrun.
  - injection Hrun as _ <-. split; [reflexivity|]. split; [exact Hf|reflexivity].
  - cbn [run_epochs] in Hrun.
    destruct (run_batches (H := model) m (zip bi bt) 0%R)
      as [[t1 m1]|] eqn:Hrb; [|discriminate].
    cbn [mbind result_bind] in Hrun.
    destruct (length bi =? 0)%nat; [discriminate|].
    destruct (run_batches_embedding gru_cell cross_entropy gradient
                adam_rule _ _ _ _ _ Hf Hrb) as [E1 Hf1].
    pose proof (run_batches_training _ _ _ _ _ Hrb) as T1.
    destruct (IH _ _ Hf1 Hrun) as (E2 & Hf2 & T2).
    split; [congruence|]. split; [exact Hf2|congruence].
Qed.

(** Whatever its mode before, a classifier that [update] returns is in
    training mode, so that its next [forward] gives raw scores; and a
    whole run of [update] leaves a frozen embedding table as it was. *)
Theorem update_training_mode (permutation_of : nat -> nat -> list nat)
  (g g' : rng) (m m' : LSTM) (data : inputs) (tgt : targets)
  (batch_size epochs : nat) (l : R) :
  frozen m ->
  update (H := model) permutation_of g m data tgt batch_size epochs
  = Ok (l, m', g') ->
  training m' = true /\ embedding m' = embedding m.
Proof.
  intros Hf. unfold update.
  destruct (create_batches _ _ _ _ _) as [[[bi bt] g1]|]; [|discriminate].
  cbn [mbind result_bind].
  destruct (run_epochs (H := model) epochs (train m) bi bt 0%R)
    as [[l1 m1]|] eqn:Hep; [|discriminate].
  cbn [mbind result_bind]. intros [= _ <- _].
  destruct (run_epochs_embedding epochs bi bt (set_training true m) m1 _ _
              Hf Hep) as (E & _ & T).
  split; [exact T|exact E].
Qed.

(** *** Gradients *)

Lemma assoc_named_map (f : string -> parameter -> parameter) (m : LSTM)
  (name : string) :
  assoc name (named_parameters (map_parameters f m))
  = f name <$> assoc name (named_parameters m).
Proof. exact (assoc_map f name (named_parameters m)). Qed.

(** After a step, a parameter that requires a gradient holds exactly the
    gradient of this step's loss, however many steps came before, and a
    parameter that does not holds none; the flags are untouched. *)
Theorem step_gradients_fresh (m m' : LSTM) (x : inputs) (y : targets)
  (l : R) (name : string) (p : parameter) :
  step (H := model) m x y = Ok (l, m') ->
  assoc name (named_parameters m) = Some p ->
  exists p',
    assoc name (named_parameters m') = Some p'
    /\ requires_grad p' = requires_grad p
    /\ grad p' = if requires_grad p
                 then Some (gradient (adam_zero_grad m) x y name)
                 else None.
Proof.
  rewrite step_unfold.
  destruct (LSTM_forward _ _ _) as [pred|]; [|discriminate].
  cbn [mbind result_bind].
  destruct (cross_entropy pred y) as [l0|]; [|discriminate].
  cbn [mbind result_bind]. intros [= _ <-] Hp.
  unfold adam_step.
  change (named_parameters (set_adam ?a ?m0)) with (named_parameters m0).
  unfold LSTM_backward, adam_zero_grad.
  rewrite !assoc_named_map, Hp. cbn [fmap option_fmap option_map].
  eexists. split; [reflexivity|].
  destruct p as [d rg gr]. cbn [set_grad requires_grad grad data].
  destruct rg; cbn [set_grad set_data requires_grad grad data];
    split; reflexivity.
Qed.

End WithKernels.

Lemma update_training_mode_witness :
  exists m0 l m' g',
    sample_init = Ok m0
    /\ update (H := sample_model) alternating {| draws := 0 |}
         (set_training false m0) [[0; 1]] [0] 1 1
       = Ok (l, m', g')
    /\ training m' = true
    /\ embedding m' = embedding m0.
Proof.
  do 4 eexists. split; [reflexivity|]. split; [reflexivity|].
  refine (update_training_mode sample_cell sample_loss sample_gradient
            sample_rule alternating {| draws := 0 |} _ _ _
            [[0; 1]] [0] 1 1 _ _ _).
  - split; reflexivity.
  - reflexivity.
Defined.

Lemma step_gradients_fresh_witness :
  exists m0 m',
    sample_init = Ok m0
    /\ step (H := sample_model) m0 [[0; 2]] [0] = Ok (0%R, m')
    /\ exists p',
         assoc "linear.bias" (named_parameters m') = Some p'
         /\ grad p' = Some (sample_gradient (adam_zero_grad m0) [[0; 2]] [0]
                              "linear.bias").
Proof.
  do 2 eexists. split; [reflexivity|]. split; [reflexivity|].
  match goal with
  | |- exists p', assoc _ (named_parameters ?m') = _
                  /\ grad _ = Some (_ (adam_zero_grad ?m0) _ _ _) =>
      destruct (step_gradients_fresh sample_cell sample_loss sample_gradient
                  sample_rule m0 m' [[0; 2]] [0] 0%R "linear.bias" _
                  eq_refl eq_refl) as (p' & Hp' & _ & Hg)
  end.
  exists p'. split; [exact Hp'|exact Hg].
Defined.

End ModelFacts.

(** ** The decorator: what the wrapped function sees, and what comes back *)

Module DecoratorFacts.
Import PyFacts Device DeviceFacts.











Lemma foldl_Raise {A B : Type} (F : result A -> B -> result A) (e : exn)
  (l : list B) :
  (forall b, F (Raise e) b = Raise e) -> foldl F (Raise e) l = Raise e.
Proof.
  intros HF. induction l as [|b l IH]; simpl; [reflexivity|].
  rewrite HF. exact IH.
Qed.

Lemma move_back_kwargs_from (kwarg_devices : gmap string device)
  (kwargs init : kwargs_t) :
  Exists (fun kv => has_cuda (snd kv) = true) kwargs ->
  (forall k v, (k, v) ∈ kwargs -> has_cuda v = true ->
               k ∈ dom kwarg_devices) ->
  foldl (fun acc '(key, value) =>
           new_kwargs ← acc;
           value ← (if has_cuda value
                    then match kwarg_devices !! key with
                         | Some _ => Raise TypeError
                         | None => Raise KeyError
                         end
                    else Ok value);
           Ok (dict_set new_kwargs key value)) (Ok init) kwargs
  = Raise TypeError.
Proof.
  intros Hex; revert init; induction Hex as [[k v] kwargs Hv|[k v] kwargs _ IH];
    intros init Hrec; cbn [foldl mbind result_bind]; simpl in *.
  - rewrite Hv.
    assert (Hk : k ∈ dom kwarg_devices)
      by (apply (Hrec k v); [apply elem_of_cons; tauto|exact Hv]).
    apply elem_of_dom in Hk as [d Hd]. rewrite Hd.
    cbn [mbind result_bind]. apply foldl_Raise. intros [k' v']. reflexivity.
  - destruct (has_cuda v) eqn:Hv.
    + assert (Hk : k ∈ dom kwarg_devices)
        by (apply (Hrec k v); [apply elem_of_cons; tauto|exact Hv]).
      apply elem_of_dom in Hk as [d Hd]. rewrite Hd.
      cbn [mbind result_bind]. apply foldl_Raise. intros [k' v']. reflexivity.
    + cbn [mbind result_bind]. apply IH. intros k' v' Hin.
      apply Hrec. apply elem_of_cons. tauto.
Qed.

(** [move_back] cannot return when it is given a keyword argument that
    has [cuda]: with the device of every such argument on record, and
    the positional arguments sent back without error, it raises
    [TypeError]. *)
Theorem move_back_keyword_TypeError (arg_devices : list (option device))
  (kwarg_devices : gmap string device) (args new_args : list value)
  (kwargs : kwargs_t) :
  move_back_args arg_devices args = Ok new_args ->
  Exists (fun kv => has_cuda (snd kv) = true) kwargs ->
  (forall k v, (k, v) ∈ kwargs -> has_cuda v = true ->
               k ∈ dom kwarg_devices) ->
  move_back arg_devices kwarg_devices args kwargs = Raise TypeError.
Proof.
  intros Hargs Hex Hrec. unfold move_back. rewrite Hargs.
  cbn [mbind result_bind]. unfold move_back_kwargs.
  rewrite (move_back_kwargs_from kwarg_devices kwargs [] Hex Hrec).
  reflexivity.
Qed.

Lemma move_back_keyword_TypeError_witness :
  move_back [Some Cpu] {["x" := Cpu]} [Tensor (Cuda 0) [1%Z]]
    [("n", Int 3); ("x", Tensor (Cuda 0) [2%Z])]
  = Raise TypeError.
Proof.
  refine (move_back_keyword_TypeError [Some Cpu] {["x" := Cpu]}
            [Tensor (Cuda 0) [1%Z]] [Tensor Cpu [1%Z]]
            [("n", Int 3); ("x", Tensor (Cuda 0) [2%Z])] _ _ _).
  - reflexivity.
  - apply Exists_cons_tl, Exists_cons_hd. reflexivity.
  - intros k v Hin Hv.
    apply elem_of_cons in Hin as [[= -> ->]|Hin]; [discriminate Hv|].
    apply elem_of_cons in Hin as [[= -> ->]|Hin]; [|inversion Hin].
    apply elem_of_dom. eexists. apply lookup_singleton_eq.
Defined.

End DecoratorFacts.

(** ** Checkpoints and the errors of the forward pass *)

Module CheckpointFacts.
Import PyFacts Batching Torch Base Classifier Checkpoints Samples.
Import ClassifierFacts ModelFacts.

Lemma assoc_elem_of {A : Type} (k : string) (l : list (string * A)) (x : A) :
  assoc k l = Some x -> (k, x) ∈ l.
Proof.
  induction l as [|[n p] l IH]; simpl; [discriminate|].
  destruct (String.eqb_spec n k) as [->|_].
  - intros [= ->]. apply elem_of_cons. tauto.
  - intros H. apply elem_of_cons. right. apply IH, H.
Qed.

(** [load_state_dict] returns only for a snapshot with the keys and the
    shapes of the model's parameters. *)
Lemma load_state_dict_inv (m m' : LSTM) (sd : state_dict_t) :
  LSTM_load_state_dict m sd = Ok m' ->
  shape <$> sd = shape <$> LSTM_state_dict m.
Proof.
  unfold LSTM_load_state_dict.
  destruct (bool_decide (dom sd = dom (LSTM_state_dict m))) eqn:Hdom;
    [|discriminate].
  rewrite andb_true_l.
  match goal with
  | |- context [forallb ?f ?l] => destruct (forallb f l) eqn:Hall
  end; [|discriminate].
  intros _. apply bool_decide_eq_true_1 in Hdom.
  rewrite forallb_forall in Hall.
  apply map_eq. intros k. rewrite !lookup_fmap, state_dict_lookup.
  destruct (assoc k (named_parameters m)) as [p|] eqn:Hp.
  - apply assoc_elem_of, list_elem_of_In in Hp.
    specialize (Hall _ Hp). cbv beta iota in Hall.
    apply bool_decide_eq_true_1 in Hall. exact Hall.
  - cbn [fmap option_fmap option_map].
    assert (Hk : k ∉ dom sd).
    { rewrite Hdom. apply not_elem_of_dom.
      rewrite state_dict_lookup, Hp. reflexivity. }
    apply not_elem_of_dom in Hk. rewrite Hk. reflexivity.
Qed.

(** A snapshot whose keys or shapes are not those of the model's
    parameters is refused with [RuntimeError], by [LSTM.load] as by
    [load_state_dict]. *)
Theorem load_refuses_other_shapes (m : LSTM) (fs : filesystem) (path : Path)
  (sd : state_dict_t) :
  fs !! path = Some (File (Snapshot sd)) ->
  shape <$> sd <> shape <$> LSTM_state_dict m ->
  LSTM_load m fs path = Raise RuntimeError.
Proof.
  intros Hfile Hshape. unfold LSTM_load, torch_load. rewrite Hfile.
  cbn [mbind result_bind].
  destruct (LSTM_load_state_dict m sd) as [m'|e] eqn:Hload.
  - destruct (Hshape (load_state_dict_inv _ _ _ Hload)).
  - unfold LSTM_load_state_dict in Hload.
    destruct (_ && _); [discriminate|]. injection Hload as <-. reflexivity.
Qed.

Lemma load_refuses_other_shapes_witness :
  exists m,
    sample_init = Ok m
    /\ LSTM_load m {[ ["model.pt"] := File (Snapshot ∅) ]} ["model.pt"]
       = Raise RuntimeError.
Proof.
  eexists. split; [reflexivity|].
  apply (load_refuses_other_shapes _ _ _ ∅).
  - apply lookup_singleton_eq.
  - intros H. apply (f_equal (fun d => d !! "linear.bias")) in H.
    rewrite !lookup_fmap, lookup_empty, state_dict_lookup in H.
    discriminate H.
Defined.

(** [LSTM.load] does not skip a path that is not there, as [load_model]
    does: it raises [FileNotFoundError]. *)
Example LSTM_load_missing :
  exists m, sample_init = Ok m
            /\ LSTM_load m ∅ ["model.pt"] = Raise FileNotFoundError.
Proof. eexists. split; reflexivity. Qed.

Section WithKernels.
Variable gru_cell : GRU -> list R -> list R -> list R.
Variable cross_entropy : evaluator.
Variable gradient : LSTM -> inputs -> targets -> string -> matrix.
Variable adam_rule : adam_entry -> matrix -> matrix -> matrix * adam_entry.

Local Abbreviation model :=
  (LSTM_model gru_cell cross_entropy gradient adam_rule).

(** What [LSTM.save] writes, [LSTM.load] and [load_model] read back:
    into a classifier whose parameters have the same shapes, loading the
    file gives the parameter state that was saved; [LSTM.load] leaves the
    classifier in evaluation mode, [load_model] leaves its mode alone.
    Saving changes the file system at the path only. *)
Theorem save_then_load (m m2 : LSTM) (fs : filesystem) (path : Path) :
  fs !! parent path = Some Directory ->
  fs !! path <> Some Directory ->
  shape <$> LSTM_state_dict m2 = shape <$> LSTM_state_dict m ->
  let fs' := <[path := File (Snapshot (LSTM_state_dict m))]> fs in
  LSTM_save m fs path = Ok fs'
  /\ (exists m2', LSTM_load m2 fs' path = Ok m2'
                  /\ LSTM_state_dict m2' = LSTM_state_dict m
                  /\ training m2' = false)
  /\ (exists m2', load_model (H := model) m2 fs' (Str path)
                  = Ok (m2', ReturnsSelf)
                  /\ LSTM_state_dict m2' = LSTM_state_dict m
                  /\ training m2' = training m2).
Proof.
  intros Hparent Hnodir Hshape fs'.
  destruct (load_state_dict_ok m2 (LSTM_state_dict m) (eq_sym Hshape))
    as (m2' & Hload & Hsd).
  assert (Htr : training m2' = training m2).
  { unfold LSTM_load_state_dict in Hload.
    destruct (_ && _); [|discriminate]. injection Hload as <-. reflexivity. }
  split; [|split].
  - unfold LSTM_save, torch_save. rewrite Hparent.
    destruct (fs !! path) as [[|c]|]; [congruence|reflexivity|reflexivity].
  - exists (set_training false m2'). split; [|split; [exact Hsd|reflexivity]].
    unfold LSTM_load, torch_load, fs'. rewrite lookup_insert_eq.
    cbn [mbind result_bind]. rewrite Hload. reflexivity.
  - exists m2'. split; [|split; [exact Hsd|exact Htr]].
    unfold load_model, exists_, torch_load, fs'. cbn [as_Path].
    rewrite lookup_insert_eq.
    rewrite bool_decide_eq_true_2 by eauto.
    cbn [mbind result_bind load_state_dict LSTM_model].
    rewrite Hload. reflexivity.
Qed.

(** *** When the forward pass raises *)




End WithKernels.

Lemma save_then_load_witness :
  exists m,
    sample_init = Ok m
    /\ LSTM_save m {[ [] := Directory ]} ["model.pt"]
       = Ok (<[ ["model.pt"] := File (Snapshot (LSTM_state_dict m)) ]>
               {[ [] := Directory ]})
    /\ exists m2',
         LSTM_load (adam_zero_grad m)
           (<[ ["model.pt"] := File (Snapshot (LSTM_state_dict m)) ]>
              {[ [] := Directory ]}) ["model.pt"] = Ok m2'
         /\ LSTM_state_dict m2' = LSTM_state_dict m
         /\ training m2' = false.
Proof.
  eexists. split; [reflexivity|].
  match goal with
  | |- LSTM_save ?m _ _ = _ /\ _ =>
      destruct (save_then_load sample_cell sample_loss sample_gradient
                  sample_rule m (adam_zero_grad m) {[ [] := Directory ]}
                  ["model.pt"]) as (Hsave & Hload & _)
  end.
  - apply lookup_singleton_eq.
  - rewrite lookup_singleton_ne by discriminate. discriminate.
  - reflexivity.
  - split; [exact Hsave|exact Hload].
Defined.


End CheckpointFacts.

(** ** The index map of [get_weights], and the encoding that uses it *)

Module IndexFacts.
Import PyFacts Batching Torch Weights Samples Text.
Import WeightsFacts TextFacts.

#[local] Set Warnings "-clear-no-such-hyp".


Section WithKernels.
Variable float_of_string : string -> result R.
Variable random_vector : nat -> nat -> list R.

Local Abbreviation parse_line :=
  (fun line => traverse float_of_string (tail (split " " line))).
Local Abbreviation read_line := (read_line float_of_string).
Local Abbreviation add_word := (add_word random_vector).

Lemma read_line_Raise (e : exn) (entries : list (nat * string)) :
  foldl read_line (Raise e) entries = Raise e.
Proof. induction entries as [|x entries IH]; [reflexivity|exact IH]. Qed.

Lemma add_word_Raise (e : exn) (vocab : list string) :
  foldl add_word (Raise e) vocab = Raise e.
Proof. induction vocab as [|x vocab IH]; [reflexivity|exact IH]. Qed.

Lemma read_line_step (wi0 : gmap string nat) (W0 : list (list R)) (k : nat)
  (line : string) :
  read_line (Ok (wi0, W0)) (k, line)
  = (vector ← parse_line line;
     Ok (<[hd EmptyString (split " " line) := k]> wi0, W0 ++ [vector])).
Proof.
  unfold Weights.read_line. cbn [mbind result_bind].
  rewrite split_first. reflexivity.
Qed.

(** The loop over the lines stops at the first field that is no
    number. *)
Lemma read_lines_Raise (lines : list string) (e : exn)
  (wi0 : gmap string nat) (W0 : list (list R)) (k : nat) :
  traverse parse_line lines = Raise e ->
  foldl read_line (Ok (wi0, W0)) (imap (fun i line => (k + i, line)) lines)
  = Raise e.
Proof.
  revert wi0 W0 k; induction lines as [|line lines IH]; intros wi0 W0 k Hparse;
    [discriminate|].
  cbn [traverse] in Hparse. cbn [imap foldl]. rewrite read_line_step.
  destruct (traverse float_of_string (tail (split " " line)))
    as [row|e'] eqn:Hrow; cbn [mbind result_bind] in *.
  - rewrite (imap_ext _ (fun i line => (S k + i, line))); cycle 1.
    { intros i x _. simpl. f_equal. lia. }
    apply IH.
    destruct (traverse parse_line lines); cbn [mbind result_bind] in Hparse;
      [discriminate|exact Hparse].
  - injection Hparse as <-. apply read_line_Raise.
Qed.




(** A field that is no number makes [get_weights] raise what the
    conversion raises, whatever the vocabulary. *)
Theorem get_weights_conversion_error (lines vocab : list string)
  (add_zero : bool) (g : rng) (e : exn) :
  traverse parse_line lines = Raise e ->
  get_weights float_of_string random_vector lines vocab add_zero g = Raise e.
Proof.
  intros Hparse. unfold get_weights.
  rewrite (read_lines_Raise lines e ∅ [] 0 Hparse). reflexivity.
Qed.




End WithKernels.

Lemma get_weights_conversion_error_witness :
  get_weights sample_float sample_vector ["a 1 2"; "b x 4"] ["a"] true
    {| draws := 0 |}
  = Raise ValueError.
Proof.
  apply get_weights_conversion_error. reflexivity.
Defined.




End IndexFacts.
